(** * Field-summary pipeline of [summarize.py]

    A shallow embedding of the reshaping and summarising script: the
    narrative blob builder, the long-to-wide pivot, the retry loop around the
    generation service, and the choice of the output file name.

    Conventions.
    - A text is the UTF-8 encoding of a Python [str], as a [string] of bytes.
      White space is what [str.isspace] accepts: the ASCII and the Unicode
      white-space characters, each as its byte sequence.
    - A table cell is a [value]: the missing-value marker [NaN], a number, or
      a text.  Numbers in the descriptive columns are integers: no property
      below computes with such a cell, cells are only compared.
    - A pass number is a finite number (a canonical rational, which covers
      the integers and the floats of a CSV column) or missing; [int(c)] in the
      column labels truncates it toward zero.
    - A row handed to the summariser is a pandas [Series]: labels with their
      values, in column order.  Labels may repeat; a lookup of a repeated
      label gives the sub-series of its values, not a scalar.
    - A delay is a Python [float]: a finite number (a rational that is a
      binary64 value), an infinity, or not-a-number.  Products are rounded to
      binary64 as the machine does.
    - pandas operations ([combine_first], [drop_duplicates], [pivot_table])
      are written out as list functions under their pandas names. *)

From Stdlib Require Import List String Ascii ZArith QArith Qround Qabs Qcanon Bool Lia Arith.
From Stdlib Require Import DecimalString DecimalZ Sorted.
Import ListNotations.

Local Open Scope string_scope.
Local Open Scope Z_scope.

(** ** Python strings *)

Module Py.

Definition nl : string := String (ascii_of_nat 10) EmptyString.

(** The text whose bytes are the given numbers. *)
Definition bytes (l : list nat) : string :=
  fold_right (fun n s => String (ascii_of_nat n) s) EmptyString l.

(** The characters [str.isspace] accepts, each in UTF-8: U+0009..U+000D,
    U+001C..U+0020, U+0085, U+00A0, U+1680, U+2000..U+200A, U+2028, U+2029,
    U+202F, U+205F and U+3000. *)
Definition whitespace : list string :=
  map bytes
    [ [9]; [10]; [11]; [12]; [13]; [28]; [29]; [30]; [31]; [32];
      [194; 133]; [194; 160]; [225; 154; 128];
      [226; 128; 128]; [226; 128; 129]; [226; 128; 130]; [226; 128; 131];
      [226; 128; 132]; [226; 128; 133]; [226; 128; 134]; [226; 128; 135];
      [226; 128; 136]; [226; 128; 137]; [226; 128; 138];
      [226; 128; 168]; [226; 128; 169]; [226; 128; 175];
      [226; 129; 159]; [227; 128; 128] ]%nat.

(** [s] without the prefix [p], when it starts with it. *)
Fixpoint drop_prefix (p s : string) : option string :=
  match p with
  | EmptyString => Some s
  | String a p' =>
      match s with
      | EmptyString => None
      | String b s' => if Ascii.eqb a b then drop_prefix p' s' else None
      end
  end.

(** [s] without its first character, when that is one of [chars]. *)
Fixpoint drop_any (chars : list string) (s : string) : option string :=
  match chars with
  | [] => None
  | c :: rest =>
      match drop_prefix c s with
      | Some r => Some r
      | None => drop_any rest s
      end
  end.

(** Dropping leading characters of [chars], at most [n] times. *)
Fixpoint lstrip_upto (chars : list string) (n : nat) (s : string) : string :=
  match n with
  | O => s
  | S n' =>
      match drop_any chars s with
      | Some r => lstrip_upto chars n' r
      | None => s
      end
  end.

Definition lstrip_of (chars : list string) (s : string) : string :=
  lstrip_upto chars (String.length s) s.

Fixpoint reverse (s : string) : string :=
  match s with
  | EmptyString => EmptyString
  | String c s' => reverse s' ++ String c EmptyString
  end.

(** [s.lstrip()] *)
Definition lstrip (s : string) : string := lstrip_of whitespace s.

(** [s.rstrip()]: the same from the other end. *)
Definition rstrip (s : string) : string :=
  reverse (lstrip_of (map reverse whitespace) (reverse s)).

(** [s.strip()] *)
Definition strip (s : string) : string := rstrip (lstrip s).

(** Truth value of a [str]: non-empty. *)
Definition truthy (s : string) : bool :=
  match s with EmptyString => false | _ => true end.

(** [sep.join(parts)] *)
Fixpoint join (sep : string) (parts : list string) : string :=
  match parts with
  | [] => EmptyString
  | [p] => p
  | p :: rest => p ++ sep ++ join sep rest
  end.

(** [str(k)] for an [int]. *)
Definition str_of_int (k : Z) : string :=
  NilEmpty.string_of_int (Z.to_int k).

(** [range(lo, hi)] *)
Definition range (lo hi : Z) : list Z :=
  map (fun k => lo + Z.of_nat k) (seq 0 (Z.to_nat (hi - lo))).

End Py.

(** ** Cells and rows *)

Inductive value : Type :=
| NaN
| Num (z : Z)
| Str (s : string).

Definition isna (v : value) : bool :=
  match v with NaN => true | _ => false end.

Definition notna (v : value) : bool := negb (isna v).

Definition value_eq_dec (a b : value) : {a = b} + {a <> b}.
Proof. decide equality; [apply Z.eq_dec | apply string_dec]. Defined.

(** A pandas Series: index labels with their values. *)
Definition Series : Type := list (string * value).

(** What a lookup by label gives: the value of the label, or, when the label
    occurs more than once, the sub-series of its values. *)
Inductive item : Type :=
| Scalar (v : value)
| Several (vs : list value).

Coercion Scalar : value >-> item.

(** A scalar is read as an item wherever an item is expected, also under
    [Some]. *)
Arguments Some {A} & a.

(** The values under a label, in row order. *)
Definition values_at (row : Series) (label : string) : list value :=
  map snd (filter (fun e => String.eqb (fst e) label) row).

(** [row.get(label)]: [None] when the label is absent. *)
Definition get (row : Series) (label : string) : option item :=
  match values_at row label with
  | [] => None
  | [v] => Some (Scalar v)
  | vs => Some (Several vs)
  end.

(** ** The narrative blob ([build_flight_blob]) *)

Definition flight_label (i : Z) : string := "Flight " ++ Py.str_of_int i.

(** The f-string ["- Flight {i}: {txt.strip()}"] with the stripped text. *)
Definition bullet (i : Z) (stripped : string) : string :=
  "- Flight " ++ Py.str_of_int i ++ ": " ++ stripped.

Definition no_narratives : string := "- No flight narratives available.".

(** One turn of the loop body: [parts] after slot [i] has been looked at.
    Only a scalar that is a [str] passes [isinstance(txt, str)]. *)
Definition blob_step (row : Series) (parts : list string) (i : Z) : list string :=
  match get row (flight_label i) with
  | Some (Scalar (Str txt)) =>
      if Py.truthy (Py.strip txt)
      then (parts ++ [bullet i (Py.strip txt)])%list
      else parts
  | _ => parts
  end.

(** [parts] when the loop [for i in range(1, 7)] ends. *)
Definition flight_parts (row : Series) : list string :=
  fold_left (blob_step row) (Py.range 1 7) [].

Definition build_flight_blob (row : Series) : string :=
  match flight_parts row with
  | [] => no_narratives
  | parts => Py.join Py.nl parts
  end.

(** The narrative of a slot: the text under its label, stripped, when that
    is a text and is not blank. *)
Definition narrative_at (row : Series) (i : Z) : option string :=
  match get row (flight_label i) with
  | Some (Scalar (Str txt)) =>
      match Py.strip txt with
      | EmptyString => None
      | t => Some t
      end
  | _ => None
  end.

Definition slot_lines (row : Series) (i : Z) : list string :=
  match narrative_at row i with
  | Some t => [bullet i t]
  | None => []
  end.

(** The blob as the specification words it, written out on its own: the
    slots 1..6 whose narrative is there and not blank, each as the line
    "- Flight i: text", in slot order, one line feed between two lines; the
    placeholder line when there is none. *)
Definition spec_line (i : Z) (text : string) : string :=
  "- Flight " ++ NilEmpty.string_of_int (Z.to_int i) ++ ": " ++ text.

Fixpoint spec_lines (row : Series) (slots : list Z) : list string :=
  match slots with
  | [] => []
  | i :: rest =>
      match narrative_at row i with
      | Some t => spec_line i t :: spec_lines row rest
      | None => spec_lines row rest
      end
  end.

Fixpoint spec_join (lines : list string) : string :=
  match lines with
  | [] => ""
  | [l] => l
  | l :: rest => l ++ "
" ++ spec_join rest
  end.

Definition narrative_blob_spec (row : Series) : string :=
  match spec_lines row [1; 2; 3; 4; 5; 6] with
  | [] => "- No flight narratives available."
  | ls => spec_join ls
  end.

(** ** Observation rows and the pivot ([pivot_flights]) *)

(** The six descriptive columns, which index the pivoted table. *)
Record field_key : Type := {
  field_id : value;
  field_name : value;
  client_name : value;
  farm_name : value;
  crop_name : value;
  area : value
}.

(** A pass number: a finite number in canonical form, so that equal numbers
    are equal terms (1 and 1.0 are the same pass, 1 and 1.5 are not). *)
Definition number : Type := Qc.

Definition number_eq_dec (a b : number) : {a = b} + {a <> b}.
Proof.
  destruct (Qeq_dec a b) as [H|H].
  - left. now apply Qc_is_canon.
  - right. intros E. apply H. now rewrite E.
Defined.

Definition number_leb (a b : number) : bool := Qle_bool a b.

(** [int(c)]: the integer part, toward zero. *)
Definition int_of (c : number) : Z := Z.quot (Qnum c) (Zpos (Qden c)).

(** The number of an integer. *)
Definition whole (n : Z) : number := Q2Qc (inject_Z n).

(** One row of the input table: the six descriptive columns, the pass number
    (a number, or missing) and the two narrative columns. *)
Record observation : Type := {
  obs_index : field_key;
  pass_number : option number;
  mission_rec : value;
  ag_assistant : value
}.

Definition DataFrame : Type := list observation.

(** [a.combine_first(b)], row by row: [a] where it is not null, else [b]. *)
Definition combine_first (a b : value) : value :=
  if notna a then a else b.

(** A row after line 48 has selected the eight columns. *)
Record flight_row : Type := {
  fr_index : field_key;
  fr_pass : option number;
  resolved_text : value
}.

Definition resolve (o : observation) : flight_row :=
  {| fr_index := obs_index o;
     fr_pass := pass_number o;
     resolved_text := combine_first (mission_rec o) (ag_assistant o) |}.

Definition field_key_eq_dec (a b : field_key) : {a = b} + {a <> b}.
Proof. decide equality; apply value_eq_dec. Defined.

Definition pass_eq_dec (a b : option number) : {a = b} + {a <> b}.
Proof. decide equality; apply number_eq_dec. Defined.

Definition subset_eq_dec (a b : value * option number) : {a = b} + {a <> b}.
Proof. decide equality; [apply pass_eq_dec | apply value_eq_dec]. Defined.

Definition group_eq_dec (a b : field_key * number) : {a = b} + {a <> b}.
Proof. decide equality; [apply number_eq_dec | apply field_key_eq_dec]. Defined.

(** The columns [drop_duplicates] compares: [field_id] and [pass_number].
    Two missing values count as equal there. *)
Definition subset_of (r : flight_row) : value * option number :=
  (field_id (fr_index r), fr_pass r).

(** [drop_duplicates(subset=...)] with the default [keep="first"]: a row
    stays unless an earlier row has the same subset. *)
Fixpoint drop_duplicates_from
    (seen : list (value * option number)) (rows : list flight_row) : list flight_row :=
  match rows with
  | [] => []
  | r :: rest =>
      if in_dec subset_eq_dec (subset_of r) seen
      then drop_duplicates_from seen rest
      else r :: drop_duplicates_from (subset_of r :: seen) rest
  end.

Definition drop_duplicates (rows : list flight_row) : list flight_row :=
  drop_duplicates_from [] rows.

(** *** Sorting of group keys *)

Definition value_compare (a b : value) : comparison :=
  match a, b with
  | Num x, Num y => Z.compare x y
  | Str x, Str y => String.compare x y
  | Num _, Str _ => Lt
  | Str _, Num _ => Gt
  | NaN, NaN => Eq
  | NaN, _ => Gt
  | _, NaN => Lt
  end.

Definition lex (c : comparison) (rest : comparison) : comparison :=
  match c with Eq => rest | _ => c end.

Definition key_compare (a b : field_key) : comparison :=
  lex (value_compare (field_id a) (field_id b))
 (lex (value_compare (field_name a) (field_name b))
 (lex (value_compare (client_name a) (client_name b))
 (lex (value_compare (farm_name a) (farm_name b))
 (lex (value_compare (crop_name a) (crop_name b))
      (value_compare (area a) (area b)))))).

Definition key_leb (a b : field_key) : bool :=
  match key_compare a b with Gt => false | _ => true end.

Section Sort.
Context {A : Type} (leb : A -> A -> bool).

Fixpoint insert_sorted (x : A) (l : list A) : list A :=
  match l with
  | [] => [x]
  | y :: l' => if leb x y then x :: l else y :: insert_sorted x l'
  end.

Definition sort_by (l : list A) : list A :=
  fold_right insert_sorted [] l.
End Sort.

(** *** [pivot_table] *)

Definition key_complete (k : field_key) : bool :=
  notna (field_id k) && notna (field_name k) && notna (client_name k)
  && notna (farm_name k) && notna (crop_name k) && notna (area k).

(** [groupby(keys, dropna=True)]: a row with a missing key belongs to no
    group.  A kept row is its group key and its value. *)
Definition grouped (rows : list flight_row) : list (field_key * number * value) :=
  flat_map
    (fun r => match fr_pass r with
              | Some p => if key_complete (fr_index r)
                          then [(fr_index r, p, resolved_text r)] else []
              | None => []
              end)
    rows.

(** The aggregation ["first"]: the first value of the group that is not
    null, and the missing-value marker when there is none. *)
Fixpoint first_notna (vs : list value) : value :=
  match vs with
  | [] => NaN
  | v :: rest => if notna v then v else first_notna rest
  end.

Definition group_values (g : list (field_key * number * value)) (k : field_key * number)
  : list value :=
  map snd (filter (fun e => if group_eq_dec (fst e) k then true else false) g).

(** [grouped.agg("first")] followed by [agged.dropna(how="all")]: one entry per
    group, and the groups whose value is missing are gone. *)
Definition agged (rows : list flight_row) : list (field_key * number * value) :=
  let g := grouped rows in
  filter (fun e => notna (snd e))
    (map (fun k => (k, first_notna (group_values g k)))
       (nodup group_eq_dec (map fst g))).

(** The pivoted table before renaming: row index, column index, cells. *)
Record pivot : Type := {
  pv_index : list field_key;
  pv_columns : list number;
  pv_agged : list (field_key * number * value)
}.

(** [unstack]: the cell of a combination that has no group is the
    missing-value marker. *)
Definition lookup (a : list (field_key * number * value)) (k : field_key)
    (p : number) : value :=
  match find (fun e => if group_eq_dec (fst e) (k, p) then true else false) a with
  | Some e => snd e
  | None => NaN
  end.

Definition pv_cell (t : pivot) (k : field_key) (p : number) : value :=
  lookup (pv_agged t) k p.

Definition pivot_table (rows : list flight_row) : pivot :=
  let a := agged rows in
  {| pv_index := sort_by key_leb (nodup field_key_eq_dec (map (fun e => fst (fst e)) a));
     pv_columns := sort_by number_leb
                     (nodup number_eq_dec (map (fun e => snd (fst e)) a));
     pv_agged := a |}.

(** A wide table: column labels and the rows' cells. *)
Record Frame : Type := {
  columns : list string;
  rows : list (list value)
}.

Definition index_names : list string :=
  ["field_id"; "field_name"; "client_name"; "farm_name"; "crop_name"; "area"].

Definition key_values (k : field_key) : list value :=
  [field_id k; field_name k; client_name k; farm_name k; crop_name k; area k].

(** The label line 57 gives the column of the pass number [c]. *)
Definition column_label (c : number) : string := flight_label (int_of c).

Definition pivot_flights (df : DataFrame) : Frame :=
  let wide := pivot_table (drop_duplicates (map resolve df)) in
  {| columns := (index_names ++ map column_label (pv_columns wide))%list;
     rows := map (fun k => (key_values k ++ map (pv_cell wide k) (pv_columns wide))%list)
               (pv_index wide) |}.

(** [wide.iterrows()]: every row as a Series labelled by the columns. *)
Definition iterrows (f : Frame) : list Series :=
  map (combine (columns f)) (rows f).

(** ** The generation service *)

(** One item of [resp.output]: its [type] attribute when it has one, and the
    [text] of each of its content blocks. *)
Record output_item : Type := {
  item_type : option string;
  item_content : list string
}.

Definition response : Type := list output_item.

(** What one call of [client.responses.create] does: it returns a response,
    or raises an [Exception] whose [str(e)] is the given text. *)
Inductive reply : Type :=
| Response (r : response)
| Failure (description : string).

(** The service as the script sees it: the reply to the call with this model
    and input, given how many calls were made before. *)
Definition Client : Type := string -> string -> nat -> reply.

(** The exceptions of the script; all of them derive from [Exception]. *)
Inductive exn : Type :=
| KeyError (key : string)
| StopIteration
| IndexError
| ServiceError (description : string)
| ValueError (description : string)
| OverflowError (description : string)
| OSError (description : string).

(** [str(e)] *)
Definition str_of_exn (e : exn) : string :=
  match e with
  | KeyError k => "'" ++ k ++ "'"
  | StopIteration => ""
  | IndexError => "list index out of range"
  | ServiceError d => d
  | ValueError d => d
  | OverflowError d => d
  | OSError d => d
  end.

(** ** Floats *)

(** A Python [float].  A finite one is the rational it stands for. *)
Inductive pyfloat : Type :=
| Finite (q : Q)
| PosInf
| NegInf
| NotANumber.

Coercion Finite : Q >-> pyfloat.
Bind Scope Q_scope with pyfloat.

Definition pow2 (k : Z) : Q := Qpower 2 k.

(** The integer nearest to [q >= 0], the even one of two that are equally
    near. *)
Definition half_even (q : Q) : Z :=
  let f := Qfloor q in
  match Qcompare (q - inject_Z f) (1 # 2) with
  | Lt => f
  | Gt => f + 1
  | Eq => if Z.even f then f else f + 1
  end.

(** The binary64 value nearest to [q > 0]: 53 bits from the leading one, or
    a multiple of 2^-1074 for a subnormal; [None] is the overflow to
    infinity. *)
Definition round_pos (q : Q) : option Q :=
  let e0 := Z.log2 (Qnum q) - Z.log2 (Zpos (Qden q)) in
  let e := if Qle_bool (pow2 e0) q then e0 else e0 - 1 in
  let u := Z.max (e - 52) (-1074) in
  let r := (inject_Z (half_even (q / pow2 u)) * pow2 u)%Q in
  if Qle_bool (pow2 1024) r then None else Some (Qred r).

Definition round64 (q : Q) : option Q :=
  match Qcompare q 0 with
  | Eq => Some 0%Q
  | Gt => round_pos q
  | Lt => option_map Qopp (round_pos (- q))
  end.

(** [a * b] on floats. *)
Definition fmul (a b : pyfloat) : pyfloat :=
  match a, b with
  | NotANumber, _ | _, NotANumber => NotANumber
  | Finite x, Finite y =>
      match round64 (x * y) with
      | Some r => Finite r
      | None => if Qle_bool 0 (x * y) then PosInf else NegInf
      end
  | Finite x, PosInf | PosInf, Finite x =>
      match Qcompare x 0 with Eq => NotANumber | Gt => PosInf | Lt => NegInf end
  | Finite x, NegInf | NegInf, Finite x =>
      match Qcompare x 0 with Eq => NotANumber | Gt => NegInf | Lt => PosInf end
  | PosInf, PosInf | NegInf, NegInf => PosInf
  | PosInf, NegInf | NegInf, PosInf => NegInf
  end.

(** ** Effects: calls made and time slept *)

Record world : Type := {
  calls : nat;
  slept : list Q
}.

Definition new_world : world := {| calls := 0; slept := [] |}.

Inductive result (A : Type) : Type :=
| Ok (a : A)
| Raised (e : exn).
Arguments Ok {A} a.
Arguments Raised {A} e.

Definition M (A : Type) : Type := world -> result A * world.

Definition ret {A} (a : A) : M A := fun w => (Ok a, w).

Definition raise {A} (e : exn) : M A := fun w => (Raised e, w).

Definition bind {A B} (m : M A) (f : A -> M B) : M B :=
  fun w => match m w with
           | (Ok a, w') => f a w'
           | (Raised e, w') => (Raised e, w')
           end.

(** A step that touches neither the service nor the clock. *)
Definition lift {A} (r : result A) : M A := fun w => (r, w).

(** [try: body  except Exception as e: handler(e)] *)
Definition try_except {A} (body : M A) (handler : exn -> M A) : M A :=
  fun w => match body w with
           | (Ok a, w') => (Ok a, w')
           | (Raised e, w') => handler e w'
           end.

Notation "x <- m ;; k" := (bind m (fun x => k))
  (at level 61, m at next level, right associativity).

(** [time.sleep] first turns the delay into nanoseconds, a signed 64-bit
    number.  The conversion fails for a float whose product with 10^9
    exceeds 2^63 in magnitude: from the float 9223372036.854778 on. *)
Definition conversion_limit : Q := 2417851639229259 # 262144.

(** Below that the operating system adds the delay to its clock and refuses
    it when the sum is beyond 2^63 nanoseconds, so what happens to a delay
    just below the limit of the conversion depends on how long the machine
    has been up.  Every delay below nine thousand million seconds (285
    years) is taken on a machine that has been up for less than seven years;
    the model refuses the others, and no property below speaks of a delay
    between the two limits. *)
Definition sleep_limit : Q := 9000000000.

(** The delays [time.sleep] takes: finite, not negative, below the limit. *)
Definition sleepable (d : pyfloat) : bool :=
  match d with
  | Finite q => Qle_bool 0 q && negb (Qle_bool sleep_limit q)
  | _ => false
  end.

(** The delays [time.sleep] refuses whatever the clock says: not-a-number,
    the infinities, the negative ones, and those the conversion fails for. *)
Definition refused (d : pyfloat) : bool :=
  match d with
  | Finite q => negb (Qle_bool 0 q) || Qle_bool conversion_limit (Qabs q)
  | _ => true
  end.

(** [time.sleep(d)]: the delay is converted first, then a negative one is
    refused, then the operating system is asked. *)
Definition sleep (d : pyfloat) : M unit :=
  match d with
  | NotANumber => raise (ValueError "Invalid value NaN (not a number)")
  | PosInf | NegInf =>
      raise (OverflowError "timestamp too large to convert to C _PyTime_t")
  | Finite q =>
      if Qle_bool conversion_limit (Qabs q)
      then raise (OverflowError "timestamp too large to convert to C _PyTime_t")
      else if negb (Qle_bool 0 q)
      then raise (ValueError "sleep length must be non-negative")
      else if Qle_bool sleep_limit q
      then raise (OSError "[Errno 22] Invalid argument")
      else fun w => (Ok tt, {| calls := calls w; slept := (slept w ++ [q])%list |})
  end.

(** [backoff * n] for an [int] [n]: the integer becomes a float first, which
    fails when it is too large. *)
Definition times (backoff : pyfloat) (n : Z) : M pyfloat :=
  match round64 (inject_Z n) with
  | Some m => ret (fmul backoff (Finite m))
  | None => raise (OverflowError "int too large to convert to float")
  end.

(** [client.responses.create(model=..., input=...)] *)
Definition create (client : Client) (model input : string) : M response :=
  fun w =>
    let w' := {| calls := S (calls w); slept := slept w |} in
    match client model input (calls w) with
    | Response r => (Ok r, w')
    | Failure d => (Raised (ServiceError d), w')
    end.

(** ** [summarize_row] *)

Definition SYSTEM_TONE : string :=
"You are an expert retail agronomist.
Write a season-oriented summary in 2–3 sentences. Be concrete and concise.
- Track EARLY vs LATE season dynamics.
- Cover when relevant: emergence, weeds, disease (incl. Tar Spot), nutrient deficiencies, insect damage.
- Mention %s or locations (NE/NW/SE/SW/north/east/etc.) if present.
- No fluff or generic megillah; use field specifics if provided. Max ~420 chars.".

(** [str(v)] of a cell, as [str.format] renders it. *)
Definition str_of_value (v : value) : string :=
  match v with
  | NaN => "nan"
  | Num z => Py.str_of_int z
  | Str s => s
  end.

(** [USER_TEMPLATE.format(...)] *)
Definition user_template (field_name field_id client_name flight_blob : string) : string :=
  "Field: " ++ field_name ++ " (ID " ++ field_id ++ ") — Client: " ++ client_name ++ Py.nl
  ++ "Flight notes:" ++ Py.nl
  ++ flight_blob ++ Py.nl
  ++ Py.nl
  ++ "Task: Summarize the season (early vs late). Keep it tight (≤420 chars).".

(** [str] of a sub-series.  pandas prints its labels, values and dtype in
    aligned columns, which this development does not spell out: the values
    alone stand for it.  Every property below about [summarize_row] takes
    the three cells it formats to be scalars, as they are in every row that
    [main] passes. *)
Definition series_repr (vs : list value) : string :=
  Py.join Py.nl (map str_of_value vs).

Definition str_of_item (x : item) : string :=
  match x with
  | Scalar v => str_of_value v
  | Several vs => series_repr vs
  end.

(** [row[label]] *)
Definition getitem (row : Series) (label : string) : M item :=
  match get row label with
  | Some x => ret x
  | None => raise (KeyError label)
  end.

Definition is_message (o : output_item) : bool :=
  match item_type o with
  | Some t => String.eqb t "message"
  | None => false
  end.

(** Lines 79-80: the first item of type "message", the text of its first
    content block, stripped.  [next] raises [StopIteration] when no item is a
    message, and [content[0]] raises [IndexError] on an empty content. *)
Definition message_text (resp : response) : result string :=
  match find is_message resp with
  | None => Raised StopIteration
  | Some msg =>
      match item_content msg with
      | [] => Raised IndexError
      | text :: _ => Ok (Py.strip text)
      end
  end.

(** The body of the [try]: one generation request and the reading of its
    answer. *)
Definition request (client : Client) (model input : string) : M (option string) :=
  resp <- create client model input ;;
  text <- lift (message_text resp) ;;
  ret (Some text).

(** The input of the request: the system tone, an empty line, the prompt. *)
Definition request_input (field_name field_id client_name : item)
    (flight_blob : string) : string :=
  let user_prompt :=
    user_template (str_of_item field_name) (str_of_item field_id)
      (str_of_item client_name) flight_blob in
  SYSTEM_TONE ++ Py.nl ++ Py.nl ++ user_prompt.

Definition error_marker (e : exn) : string := "[LLM error] " ++ str_of_exn e.

(** The loop [for attempt in range(retries)] over the attempts still to make.
    Falling out of the loop, the function ends without a [return]: [None]. *)
Fixpoint retry_loop (client : Client) (model input : string)
    (retries : Z) (backoff : pyfloat) (attempts : list Z) : M (option string) :=
  match attempts with
  | [] => ret None
  | attempt :: later =>
      try_except
        (request client model input)
        (fun e =>
           if attempt =? retries - 1
           then ret (Some (error_marker e))
           else (d <- times backoff (attempt + 1) ;;
                 _ <- sleep d ;;
                 retry_loop client model input retries backoff later))
  end.

Definition summarize_row (client : Client) (model : string) (row : Series)
    (retries : Z) (backoff : pyfloat) : M (option string) :=
  let flight_blob := build_flight_blob row in
  field_name <- getitem row "field_name" ;;
  field_id <- getitem row "field_id" ;;
  client_name <- getitem row "client_name" ;;
  retry_loop client model
    (request_input field_name field_id client_name flight_blob)
    retries backoff (Py.range 0 retries).

Definition default_retries : Z := 3.
Definition default_backoff : Q := 2.

(** ** [main] *)

Record arguments : Type := {
  input : string;
  output : option string;
  model : string;
  delay : pyfloat
}.

(** *** The output file name *)

Fixpoint split_slash (s : string) : list string :=
  match s with
  | EmptyString => [EmptyString]
  | String c s' =>
      if Ascii.eqb c "/"
      then EmptyString :: split_slash s'
      else match split_slash s' with
           | [] => [String c EmptyString]
           | p :: ps => String c p :: ps
           end
  end.

(** The components of a POSIX path: empty components and "." are dropped. *)
Definition path_parts (p : string) : list string :=
  filter (fun c => negb (String.eqb c "" || String.eqb c ".")) (split_slash p).

(** [Path(p).name] *)
Definition path_name (p : string) : string := last (path_parts p) "".

(** [name.rfind(".")], -1 when there is no dot. *)
Fixpoint rfind_dot (name : string) : Z :=
  match name with
  | EmptyString => -1
  | String c rest =>
      let i := rfind_dot rest in
      if 0 <=? i then i + 1
      else if Ascii.eqb c "." then 0 else -1
  end.

Definition len (s : string) : Z := Z.of_nat (String.length s).

(** [Path(p).suffix] *)
Definition path_suffix (p : string) : string :=
  let name := path_name p in
  let i := rfind_dot name in
  if (0 <? i) && (i <? len name - 1)
  then substring (Z.to_nat i) (String.length name - Z.to_nat i) name
  else "".

(** [Path(p).stem] *)
Definition path_stem (p : string) : string :=
  let name := path_name p in
  let i := rfind_dot name in
  if (0 <? i) && (i <? len name - 1)
  then substring 0 (Z.to_nat i) name
  else name.

Definition summarized : string := "-summarized".

Definition default_output (input_path : string) : string :=
  path_stem input_path ++ summarized ++ path_suffix input_path.

(** Line 96: [args.output or f"..."]; [None] and the empty string are falsy. *)
Definition output_name (args : arguments) : string :=
  match output args with
  | Some o => if Py.truthy o then o else default_output (input args)
  | None => default_output (input args)
  end.

(** *** The table that is written *)

(** The cell of the [field_summary] column. *)
Definition summary_cell (txt : option string) : value :=
  match txt with
  | Some s => Str s
  | None => NaN
  end.

(** The loop of lines 103-107 over the rows still to summarise. *)
Fixpoint summarize_all (client : Client) (args : arguments) (todo : list Series)
  : M (list (option string)) :=
  match todo with
  | [] => ret []
  | row :: later =>
      txt <- summarize_row client (model args) row default_retries default_backoff ;;
      _ <- sleep (delay args) ;;
      summaries <- summarize_all client args later ;;
      ret (txt :: summaries)
  end.

(** [wide["field_summary"] = summaries]: a new last column. *)
Definition with_summaries (wide : Frame) (summaries : list (option string)) : Frame :=
  {| columns := (columns wide ++ ["field_summary"])%list;
     rows := map (fun rs => (fst rs ++ [summary_cell (snd rs)])%list)
               (combine (rows wide) summaries) |}.

(** The table [main] hands to [to_csv], from the table [read_csv] gave. *)
Definition main_table (client : Client) (args : arguments) (df : DataFrame) : M Frame :=
  let wide := pivot_flights df in
  summaries <- summarize_all client args (iterrows wide) ;;
  ret (with_summaries wide summaries).

(** The wording of the specification for the narrative resolution: the
    primary narrative counts as missing when it is absent or the empty text. *)
Definition absent_or_empty (v : value) : bool :=
  match v with
  | NaN => true
  | Str EmptyString => true
  | _ => false
  end.


(** A de-duplicated row that reaches a cell of the pivot: all its keys and
    its narrative are there. *)
Definition live (r : flight_row) : bool :=
  key_complete (fr_index r)
  && (match fr_pass r with Some _ => true | None => false end)
  && notna (resolved_text r).

(** What one request yields, seen from the number of calls made before. *)
Definition outcome (client : Client) (model input : string) (n : nat) : result string :=
  match client model input n with
  | Failure d => Raised (ServiceError d)
  | Response r => message_text r
  end.

(** A text in which the character [c] does not occur. *)
Fixpoint free_of (c : ascii) (s : string) : Prop :=
  match s with
  | EmptyString => True
  | String a s' => a <> c /\ free_of c s'
  end.

(** The rows of a (field_id, pass_number) pair. *)
Definition same_subset (k : value * option number) (r : flight_row) : bool :=
  if subset_eq_dec (subset_of r) k then true else false.

(** ** Notions used in the properties *)

(** A cell as [pd.read_csv] (line 100), the only source of the table, yields
    it: an empty field of the file is read as the missing-value marker, never
    as the empty text. *)
Definition csv_cell (v : value) : bool :=
  match v with
  | Str EmptyString => false
  | _ => true
  end.

(** A text that starts, or ends, with a white-space character. *)
Definition starts_with_space (s : string) : bool :=
  match Py.drop_any Py.whitespace s with
  | Some _ => true
  | None => false
  end.

Definition ends_with_space (s : string) : bool :=
  match Py.drop_any (map Py.reverse Py.whitespace) (Py.reverse s) with
  | Some _ => true
  | None => false
  end.

(** A text of white-space characters only. *)
Inductive blank : string -> Prop :=
| blank_empty : blank ""
| blank_more (c s : string) : In c Py.whitespace -> blank s -> blank (c ++ s).

(** No two pass numbers of the columns have the same integer part, so that
    no two flight columns have the same label. *)
Definition distinct_labels (cols : list number) : Prop :=
  forall p q, In p cols -> In q cols -> int_of p = int_of q -> p = q.

(** The pass numbers among [cols] whose column is labelled "Flight n". *)
Definition labelled (n : Z) (cols : list number) : list number :=
  filter (fun c => int_of c =? n) cols.

(** The float [backoff * (attempt + 1)] of line 84, when the attempt number
    is not too large an [int] for a float. *)
Definition backoff_product (backoff : pyfloat) (attempt : Z) : option pyfloat :=
  option_map (fun m => fmul backoff (Finite m)) (round64 (inject_Z (attempt + 1))).

(** The delay slept after the failed attempt [attempt], when [time.sleep]
    takes it: [backoff * (attempt + 1)]. *)
Definition nap (backoff : pyfloat) (attempt : Z) : option Q :=
  match round64 (inject_Z (attempt + 1)) with
  | Some m =>
      match fmul backoff (Finite m) with
      | Finite q => if sleepable (Finite q) then Some q else None
      | _ => None
      end
  | None => None
  end.

(** The loop of [main] over the fields, told field by field: for each row
    in turn the text its call returned and the number of requests the call
    made, with the back-off delays slept in between, then the delay [dl]
    between two fields. *)
Inductive field_by_field (client : Client) (args : arguments) (dl : Q) :
    list Series -> world -> list (string * nat) -> world -> Prop :=
| fields_done (w : world) : field_by_field client args dl [] w [] w
| fields_next (row : Series) (later : list Series) (w u w' : world)
    (s : string) (n : nat) (log : list (string * nat)) :
    summarize_row client (model args) row default_retries default_backoff w
    = (Ok (Some s), u) ->
    calls u = (calls w + n)%nat ->
    slept u = (slept w ++ firstn (n - 1) [2; 4]%Q)%list ->
    field_by_field client args dl later
      {| calls := calls u; slept := (slept u ++ [dl])%list |} log w' ->
    field_by_field client args dl (row :: later) w ((s, n) :: log) w'.

(** ** Sample data *)

Definition north : field_key :=
  {| field_id := Str "F1"; field_name := Str "North 40"; client_name := Str "Acme";
     farm_name := Str "Home"; crop_name := Str "corn"; area := Num 40 |}.

Definition south : field_key :=
  {| field_id := Str "F2"; field_name := Str "South 80"; client_name := Str "Acme";
     farm_name := Str "Home"; crop_name := Str "soy"; area := Num 80 |}.

(** A row whose primary narrative is the empty text. *)
Definition empty_primary : observation :=
  {| obs_index := north; pass_number := Some (whole 1);
     mission_rec := Str ""; ag_assistant := Str "stand is even" |}.

(** A table in which the field F2 has rows but no narrative. *)
Definition silent_field : DataFrame :=
  [ {| obs_index := north; pass_number := Some (whole 1);
       mission_rec := Str "stand is even"; ag_assistant := NaN |};
    {| obs_index := south; pass_number := Some (whole 1);
       mission_rec := NaN; ag_assistant := NaN |} ].



(** A row of the pivoted table. *)
Definition north_row : Series :=
  [("field_id", Str "F1"); ("field_name", Str "North 40"); ("client_name", Str "Acme");
   ("farm_name", Str "Home"); ("crop_name", Str "corn"); ("area", Num 40);
   ("Flight 1", Str "stand is even")].

Definition answer : response :=
  [ {| item_type := Some "reasoning"; item_content := [] |};
    {| item_type := Some "message"; item_content := [" Even stand early. "] |} ].

(** A service that is down for its first two calls. *)
Definition third_time_lucky : Client :=
  fun _ _ n => match n with
               | 0%nat | 1%nat => Failure "connection reset"
               | _ => Response answer
               end.

(** A service that is down. *)
Definition always_down : Client := fun _ _ _ => Failure "connection reset".

Definition sample_args : arguments :=
  {| input := "data/scouting.2024.csv"; output := None;
     model := "gpt-4.1"; delay := 1 # 4 |}.

(** The arguments of a run started with [--delay -1]. *)
Definition hasty_args : arguments :=
  {| input := "data/scouting.2024.csv"; output := None;
     model := "gpt-4.1"; delay := (-1) |}.

(** Rows that differ outside the six flight columns only. *)
Definition noisy_row : Series :=
  [("area", Num 40); ("Flight 1", Str "stand is even"); ("Flight 9", Str "late");
   ("note", Str "ignored")].

(** A table with one field scouted on passes 1 and 3, and one silent field. *)
Definition two_passes : DataFrame :=
  [ {| obs_index := north; pass_number := Some (whole 3);
       mission_rec := NaN; ag_assistant := Str " tar spot in the NE corner " |};
    {| obs_index := north; pass_number := Some (whole 1);
       mission_rec := Str "stand is even"; ag_assistant := NaN |};
    {| obs_index := south; pass_number := Some (whole 1);
       mission_rec := NaN; ag_assistant := NaN |} ].

(** The row of the field F1 in the pivot of [two_passes]. *)
Definition north_two_passes : Series :=
  [("field_id", Str "F1"); ("field_name", Str "North 40"); ("client_name", Str "Acme");
   ("farm_name", Str "Home"); ("crop_name", Str "corn"); ("area", Num 40);
   ("Flight 1", Str "stand is even");
   ("Flight 3", Str " tar spot in the NE corner ")].

(** A field scouted on the passes 1 and 1.5, which both give "Flight 1". *)
Definition split_pass : DataFrame :=
  [ {| obs_index := north; pass_number := Some (whole 1);
       mission_rec := Str "stand is even"; ag_assistant := NaN |};
    {| obs_index := north; pass_number := Some (Q2Qc (3 # 2));
       mission_rec := Str "gaps in the NE corner"; ag_assistant := NaN |} ].

(** A row that lacks the client column. *)
Definition clientless_row : Series :=
  [("field_id", Str "F1"); ("field_name", Str "North 40")].

(** A service that answers at once. *)
Definition always_up : Client := fun _ _ _ => Response answer.

(** A narrative of a no-break space and a space. *)
Definition blank_text : string := Py.bytes [194; 160; 32]%nat.

(** The float 0.1. *)
Definition tenth : Q := 3602879701896397 # 36028797018963968.

(** A service that is down for its first three calls. *)
Definition fourth_time_lucky : Client :=
  fun _ _ n => match n with
               | 0%nat | 1%nat | 2%nat => Failure "connection reset"
               | _ => Response answer
               end.

(** * Properties *)

(** ** Texts and decimal labels *)

Lemma append_inj_l (p a b : string) : p ++ a = p ++ b -> a = b.
Proof.
  induction p as [|c p IH]; simpl; intros H; [exact H|].
  injection H as H. auto.
Qed.

Lemma split_at (c : ascii) (a b r r' : string) :
  free_of c a -> free_of c b ->
  a ++ String c r = b ++ String c r' -> a = b /\ r = r'.
Proof.
  revert b. induction a as [|x a IH]; intros [|y b]; simpl; intros Fa Fb H.
  - injection H as H. auto.
  - injection H as Hc _. destruct Fb as [Fb _]. congruence.
  - injection H as Hc _. destruct Fa as [Fa _]. congruence.
  - injection H as Hxy H. destruct Fa as [_ Fa], Fb as [_ Fb].
    destruct (IH b Fa Fb H) as [-> ->]. subst. auto.
Qed.

Lemma uint_free_of_colon (d : Decimal.uint) :
  free_of ":" (NilEmpty.string_of_uint d).
Proof.
  induction d; simpl; auto; split; auto; discriminate.
Qed.

Lemma str_of_int_free_of_colon (k : Z) : free_of ":" (Py.str_of_int k).
Proof.
  unfold Py.str_of_int. destruct (Z.to_int k); simpl.
  - apply uint_free_of_colon.
  - split; [discriminate | apply uint_free_of_colon].
Qed.

Lemma str_of_int_inj (a b : Z) : Py.str_of_int a = Py.str_of_int b -> a = b.
Proof.
  unfold Py.str_of_int. intros H.
  apply DecimalZ.to_int_inj.
  assert (E : Some (Z.to_int a) = Some (Z.to_int b))
    by (rewrite <- !NilEmpty.isi; now rewrite H).
  now injection E.
Qed.

Lemma flight_label_inj (a b : Z) : flight_label a = flight_label b -> a = b.
Proof.
  unfold flight_label. intros H.
  apply str_of_int_inj. exact (append_inj_l _ _ _ H).
Qed.

Lemma bullet_inj (i j : Z) (s t : string) :
  bullet i s = bullet j t -> i = j /\ s = t.
Proof.
  unfold bullet. intros H. apply append_inj_l in H.
  apply split_at in H; try apply str_of_int_free_of_colon.
  destruct H as [Hd Hs]. injection Hs as Hs.
  split; [now apply str_of_int_inj | exact Hs].
Qed.

(** ** The narrative blob *)

Lemma narrative_at_Some (row : Series) (i : Z) (s : string) :
  narrative_at row i = Some s <->
  exists txt, get row (flight_label i) = Some (Str txt) /\ Py.strip txt = s /\ s <> "".
Proof.
  unfold narrative_at. split.
  - destruct (get row (flight_label i)) as [[[| |txt]|vs]|]; try discriminate.
    destruct (Py.strip txt) eqn:E; [discriminate|].
    intros [= <-]. exists txt. repeat split; auto. discriminate.
  - intros (txt & -> & <- & Hne).
    destruct (Py.strip txt); congruence.
Qed.

Lemma blob_step_app (row : Series) (parts : list string) (i : Z) :
  blob_step row parts i = (parts ++ slot_lines row i)%list.
Proof.
  unfold blob_step, slot_lines, narrative_at.
  destruct (get row (flight_label i)) as [[[| |txt]|vs]|];
    try (now rewrite app_nil_r).
  destruct (Py.strip txt); simpl; [now rewrite app_nil_r | reflexivity].
Qed.

Lemma fold_blob_step (row : Series) (l : list Z) (acc : list string) :
  fold_left (blob_step row) l acc = (acc ++ flat_map (slot_lines row) l)%list.
Proof.
  revert acc. induction l as [|i l IH]; intros acc; simpl.
  - now rewrite app_nil_r.
  - now rewrite IH, blob_step_app, <- app_assoc.
Qed.

Lemma flight_parts_slots (row : Series) :
  flight_parts row = flat_map (slot_lines row) [1; 2; 3; 4; 5; 6].
Proof. unfold flight_parts. now rewrite fold_blob_step. Qed.

Lemma slot_lines_spec (row : Series) (slots : list Z) :
  flat_map (slot_lines row) slots = spec_lines row slots.
Proof.
  induction slots as [|i slots IH]; [reflexivity|].
  cbn [flat_map spec_lines]. unfold slot_lines at 1.
  destruct (narrative_at row i); rewrite IH; reflexivity.
Qed.

Lemma join_spec (parts : list string) : Py.join Py.nl parts = spec_join parts.
Proof.
  induction parts as [|p parts IH]; [reflexivity|].
  destruct parts as [|q parts]; [reflexivity|].
  change (p ++ Py.nl ++ Py.join Py.nl (q :: parts)
          = p ++ Py.nl ++ spec_join (q :: parts)).
  now rewrite IH.
Qed.

(** The blob is its parts, one per line, or the placeholder. *)
Lemma blob_of_parts (row : Series) :
  build_flight_blob row
  = match flight_parts row with
    | [] => "- No flight narratives available."
    | parts => spec_join parts
    end.
Proof.
  unfold build_flight_blob. destruct (flight_parts row) as [|p parts];
    [reflexivity | apply join_spec].
Qed.

Lemma slot_in_range (j : Z) : In j [1; 2; 3; 4; 5; 6] <-> 1 <= j <= 6.
Proof. simpl. lia. Qed.

Lemma in_flight_parts (row : Series) (i : Z) (s : string) :
  In (bullet i s) (flight_parts row) <->
  1 <= i <= 6 /\ narrative_at row i = Some s.
Proof.
  rewrite flight_parts_slots, in_flat_map. split.
  - intros (j & Hj & Hin). unfold slot_lines in Hin.
    destruct (narrative_at row j) as [t|] eqn:E; [|contradiction].
    destruct Hin as [Hin|[]]. symmetry in Hin.
    apply bullet_inj in Hin as [-> ->].
    split; [now apply slot_in_range | exact E].
  - intros [Hi E]. exists i. split; [now apply slot_in_range|].
    unfold slot_lines. rewrite E. now left.
Qed.

(** Every part is the line of a slot. *)
Lemma flight_parts_are_lines (row : Series) (line : string) :
  In line (flight_parts row) -> exists i s, line = bullet i s.
Proof.
  rewrite flight_parts_slots, in_flat_map. intros (j & _ & Hin).
  unfold slot_lines in Hin. destruct (narrative_at row j) as [t|]; [|contradiction].
  destruct Hin as [<-|[]]. eauto.
Qed.

(** C4.  The blob is the specification's: one line "- Flight i: text" per
    slot 1..6 whose narrative is there and not blank after trimming, in slot
    order, with one line feed between two lines.  Narratives in slots 2 and 5
    only give the two lines of Flight 2 and Flight 5, in that order; no
    narrative at all gives the placeholder line. *)
Theorem build_flight_blob_spec :
  (forall row, build_flight_blob row = narrative_blob_spec row)
  /\ (forall row a b,
        narrative_at row 1 = None -> narrative_at row 2 = Some a ->
        narrative_at row 3 = None -> narrative_at row 4 = None ->
        narrative_at row 5 = Some b -> narrative_at row 6 = None ->
        build_flight_blob row = "- Flight 2: " ++ a ++ "
- Flight 5: " ++ b)
  /\ (forall row,
        (forall i, 1 <= i <= 6 -> narrative_at row i = None) ->
        build_flight_blob row = "- No flight narratives available.").
Proof.
  assert (E : forall row, build_flight_blob row = narrative_blob_spec row).
  { intros row. rewrite blob_of_parts, flight_parts_slots, slot_lines_spec.
    reflexivity. }
  split; [exact E|]. split.
  - intros row a b H1 H2 H3 H4 H5 H6. rewrite E.
    unfold narrative_blob_spec. cbn [spec_lines].
    rewrite H1, H2, H3, H4, H5, H6. cbn [spec_join]. unfold spec_line.
    reflexivity.
  - intros row H. rewrite E.
    unfold narrative_blob_spec. cbn [spec_lines].
    now rewrite !H by lia.
Qed.

Lemma build_flight_blob_spec_witness :
  build_flight_blob
    [("field_id", Str "F1"); ("Flight 1", NaN); ("Flight 2", Str "  emergence even ");
     ("Flight 5", Str "tar spot NE")]
  = "- Flight 2: emergence even
- Flight 5: tar spot NE".
Proof.
  apply (proj1 (proj2 build_flight_blob_spec)
           [("field_id", Str "F1"); ("Flight 1", NaN);
            ("Flight 2", Str "  emergence even "); ("Flight 5", Str "tar spot NE")]
           "emergence even" "tar spot NE");
    reflexivity.
Defined.

Lemma get_other_flight (row : Series) (k i : Z) (v : value) :
  k <> i ->
  get ((flight_label k, v) :: row) (flight_label i) = get row (flight_label i).
Proof.
  intros Hne. unfold get, values_at. cbn [filter fst].
  destruct (String.eqb_spec (flight_label k) (flight_label i)) as [E|E];
    [|reflexivity].
  now apply flight_label_inj in E.
Qed.

(** C8.  The blob is made of the parts, one per line.  The line of slot [i]
    is among them exactly when [i] is one of 1..6 and the cell under
    "Flight i" is a text with something else than white space in it; every
    part is such a line; a cell that is no text (absent, the missing-value
    marker, a number) contributes nothing and the function still returns;
    and a narrative under "Flight k" with [k >= 7] never reaches the blob. *)
Theorem build_flight_blob_slots (row : Series) :
  build_flight_blob row
  = match flight_parts row with
    | [] => "- No flight narratives available."
    | parts => spec_join parts
    end
  /\ (forall i s,
        In ("- Flight " ++ Py.str_of_int i ++ ": " ++ s) (flight_parts row) <->
        1 <= i <= 6 /\
        exists txt, get row ("Flight " ++ Py.str_of_int i) = Some (Str txt)
                    /\ Py.strip txt = s /\ s <> "")
  /\ (forall line,
        In line (flight_parts row) ->
        exists i s, line = "- Flight " ++ Py.str_of_int i ++ ": " ++ s)
  /\ (forall i,
        (forall txt, get row ("Flight " ++ Py.str_of_int i) <> Some (Str txt)) ->
        forall s, ~ In ("- Flight " ++ Py.str_of_int i ++ ": " ++ s)
                     (flight_parts row))
  /\ (forall k s, 7 <= k ->
        ~ In ("- Flight " ++ Py.str_of_int k ++ ": " ++ s) (flight_parts row))
  /\ (forall k v, 7 <= k ->
        build_flight_blob (("Flight " ++ Py.str_of_int k, v) :: row)
        = build_flight_blob row).
Proof.
  assert (I : forall i s,
      In (bullet i s) (flight_parts row) <->
      1 <= i <= 6 /\
      exists txt, get row (flight_label i) = Some (Str txt)
                  /\ Py.strip txt = s /\ s <> "").
  { intros i s. rewrite in_flight_parts, narrative_at_Some. reflexivity. }
  split; [apply blob_of_parts|]. split; [exact I|]. split; [|split; [|split]].
  - apply flight_parts_are_lines.
  - intros i Hno s Hin. apply I in Hin as (_ & txt & Hget & _).
    exact (Hno txt Hget).
  - intros k s Hk Hin. apply I in Hin as (Hr & _). lia.
  - intros k v Hk.
    assert (S : forall i, 1 <= i <= 6 ->
                slot_lines ((flight_label k, v) :: row) i = slot_lines row i).
    { intros i Hi. unfold slot_lines, narrative_at.
      rewrite get_other_flight by lia. reflexivity. }
    change (build_flight_blob ((flight_label k, v) :: row) = build_flight_blob row).
    unfold build_flight_blob. rewrite !flight_parts_slots.
    cbn [flat_map]. now rewrite !S by lia.
Qed.

Lemma build_flight_blob_slots_witness :
  7 <= 7 /\
  build_flight_blob
    [("Flight 7", Str "late scouting note"); ("Flight 3", NaN); ("Flight 4", Num 12);
     ("Flight 6", Str " lodging  ")]
  = "- Flight 6: lodging".
Proof.
  split; [lia|].
  transitivity
    (build_flight_blob
       [("Flight 3", NaN); ("Flight 4", Num 12); ("Flight 6", Str " lodging  ")]);
    [|reflexivity].
  apply (proj2 (proj2 (proj2 (proj2 (proj2
           (build_flight_blob_slots
              [("Flight 3", NaN); ("Flight 4", Num 12);
               ("Flight 6", Str " lodging  ")])))))
           7 (Str "late scouting note")).
  lia.
Defined.

(** ** Sorting keeps the elements *)

Section SortFacts.
Context {A : Type} (leb : A -> A -> bool).

Lemma in_insert_sorted (x y : A) (l : list A) :
  In y (insert_sorted leb x l) <-> y = x \/ In y l.
Proof.
  induction l as [|z l IH]; simpl.
  - intuition.
  - destruct (leb x z); simpl; rewrite ?IH; intuition.
Qed.

Lemma in_sort_by (y : A) (l : list A) : In y (sort_by leb l) <-> In y l.
Proof.
  induction l as [|x l IH]; simpl; [reflexivity|].
  rewrite in_insert_sorted, IH. intuition.
Qed.

Lemma NoDup_insert_sorted (x : A) (l : list A) :
  ~ In x l -> NoDup l -> NoDup (insert_sorted leb x l).
Proof.
  induction l as [|z l IH]; simpl; intros Hx Hl.
  - constructor; [intros []|constructor].
  - destruct (leb x z).
    + constructor; [exact Hx | exact Hl].
    + inversion Hl as [|? ? Hz Hl']; subst. constructor.
      * rewrite in_insert_sorted. intros [->|H]; [apply Hx; now left | exact (Hz H)].
      * apply IH; [intros H; apply Hx; now right | exact Hl'].
Qed.

Lemma NoDup_sort_by (l : list A) : NoDup l -> NoDup (sort_by leb l).
Proof.
  induction l as [|x l IH]; simpl; intros H; [constructor|].
  inversion H as [|? ? Hx Hl]; subst.
  apply NoDup_insert_sorted; [now rewrite in_sort_by | now apply IH].
Qed.

Lemma length_insert_sorted (x : A) (l : list A) :
  List.length (insert_sorted leb x l) = S (List.length l).
Proof.
  induction l as [|z l IH]; simpl; [reflexivity|].
  destruct (leb x z); simpl; [reflexivity | now rewrite IH].
Qed.
End SortFacts.

(** ** De-duplication *)

Lemma same_subset_true (k : value * option number) (r : flight_row) :
  same_subset k r = true <-> subset_of r = k.
Proof. unfold same_subset. destruct (subset_eq_dec (subset_of r) k); intuition congruence. Qed.

Lemma drop_duplicates_from_filter (k : value * option number) (rows : list flight_row) :
  forall seen,
    filter (same_subset k) (drop_duplicates_from seen rows) =
    if in_dec subset_eq_dec k seen then []
    else match find (same_subset k) rows with
         | Some r => [r]
         | None => []
         end.
Proof.
  induction rows as [|r rest IH]; intros seen; simpl.
  - now destruct (in_dec subset_eq_dec k seen).
  - destruct (in_dec subset_eq_dec (subset_of r) seen) as [Hr|Hr].
    + rewrite IH. destruct (in_dec subset_eq_dec k seen) as [Hk|Hk]; [reflexivity|].
      destruct (same_subset k r) eqn:E; [|reflexivity].
      apply same_subset_true in E. congruence.
    + simpl. rewrite IH. destruct (same_subset k r) eqn:E.
      * apply same_subset_true in E. subst k.
        destruct (in_dec subset_eq_dec (subset_of r) seen) as [|_]; [contradiction|].
        destruct (in_dec subset_eq_dec (subset_of r) (subset_of r :: seen)) as [_|N];
          [reflexivity | exfalso; apply N; now left].
      * assert (Hne : subset_of r <> k)
          by (intros H; apply same_subset_true in H; congruence).
        destruct (in_dec subset_eq_dec k (subset_of r :: seen)) as [[H|H]|H];
          destruct (in_dec subset_eq_dec k seen) as [H'|H'];
          try reflexivity; try contradiction.
        exfalso. apply H. now right.
Qed.

Lemma drop_duplicates_filter (k : value * option number) (rows : list flight_row) :
  filter (same_subset k) (drop_duplicates rows) =
  match find (same_subset k) rows with
  | Some r => [r]
  | None => []
  end.
Proof. unfold drop_duplicates. now rewrite drop_duplicates_from_filter. Qed.

Lemma drop_duplicates_from_incl (rows : list flight_row) :
  forall seen r, In r (drop_duplicates_from seen rows) -> In r rows.
Proof.
  induction rows as [|x rest IH]; intros seen r; simpl; [tauto|].
  destruct (in_dec subset_eq_dec (subset_of x) seen); simpl.
  - intros H. right. eauto.
  - intros [H|H]; [now left | right; eauto].
Qed.

Lemma drop_duplicates_incl (rows : list flight_row) (r : flight_row) :
  In r (drop_duplicates rows) -> In r rows.
Proof. apply drop_duplicates_from_incl. Qed.

(** The only row of a (field_id, pass_number) pair that is left is the first
    row of the pair. *)
Lemma drop_duplicates_first (rows : list flight_row) (r first : flight_row) :
  find (same_subset (subset_of r)) rows = Some first ->
  In r (drop_duplicates rows) -> r = first.
Proof.
  intros Hf Hin.
  assert (H : In r (filter (same_subset (subset_of r)) (drop_duplicates rows))).
  { apply filter_In. split; [exact Hin | now apply same_subset_true]. }
  rewrite drop_duplicates_filter, Hf in H. destruct H as [H|[]]. now symmetry.
Qed.

(** ** Grouping and aggregation *)

Lemma isna_NaN (v : value) : notna v = false -> v = NaN.
Proof. destruct v; cbv; congruence. Qed.

Lemma in_grouped (rows : list flight_row) (k : field_key) (p : number) (v : value) :
  In (k, p, v) (grouped rows) <->
  exists r, In r rows /\ fr_index r = k /\ fr_pass r = Some p
            /\ key_complete k = true /\ resolved_text r = v.
Proof.
  unfold grouped. rewrite in_flat_map. split.
  - intros (r & Hr & Hin). exists r.
    destruct (fr_pass r) as [q|]; [|contradiction].
    destruct (key_complete (fr_index r)) eqn:C; [|contradiction].
    destruct Hin as [[= <- <- <-]|[]]. auto.
  - intros (r & Hr & <- & Hp & C & <-). exists r. split; [exact Hr|].
    rewrite Hp, C. now left.
Qed.

Lemma first_notna_notna (vs : list value) :
  notna (first_notna vs) = true <-> exists v, In v vs /\ notna v = true.
Proof.
  induction vs as [|x vs IH]; simpl.
  - split; [discriminate | intros (v & [] & _)].
  - destruct (notna x) eqn:E.
    + split; [intros _; exists x; auto | intros _; exact E].
    + rewrite IH. split.
      * intros (v & Hv & N). exists v. auto.
      * intros (v & [->|Hv] & N); [congruence | exists v; auto].
Qed.

(** A group all of whose values are the same value aggregates to it. *)
Lemma first_notna_const (vs : list value) (x : value) :
  vs <> [] -> (forall v, In v vs -> v = x) -> first_notna vs = x.
Proof.
  induction vs as [|y vs IH]; intros Hne Hall; [congruence|].
  simpl. assert (y = x) by (apply Hall; now left). subst y.
  destruct (notna x) eqn:E; [reflexivity|].
  destruct vs as [|z vs]; [simpl; symmetry; now apply isna_NaN|].
  apply IH; [discriminate | intros v Hv; apply Hall; now right].
Qed.

Lemma in_group_values (g : list (field_key * number * value)) (k : field_key * number)
    (v : value) :
  In v (group_values g k) <-> In (k, v) g.
Proof.
  unfold group_values. rewrite in_map_iff. split.
  - intros ([k' v'] & <- & Hin). apply filter_In in Hin as [Hin E]. simpl in *.
    destruct (group_eq_dec k' k); [now subst | discriminate].
  - intros Hin. exists (k, v). split; [reflexivity|].
    apply filter_In. split; [exact Hin|]. simpl.
    now destruct (group_eq_dec k k).
Qed.

Lemma in_agged (rows : list flight_row) (k : field_key) (p : number) (v : value) :
  In (k, p, v) (agged rows) <->
  v = first_notna (group_values (grouped rows) (k, p)) /\ notna v = true.
Proof.
  unfold agged. rewrite filter_In, in_map_iff. simpl. split.
  - intros [(k' & [= <- <-] & _) N]. auto.
  - intros [-> N]. split; [|exact N].
    exists (k, p). split; [reflexivity|].
    apply nodup_In, in_map_iff.
    apply first_notna_notna in N as (v & Hv & _).
    apply in_group_values in Hv. now exists (k, p, v).
Qed.

Section Lookup.
Context (f : field_key * number -> value).

(** Finding a key among the kept entries of a keyed list. *)
Lemma find_keyed (key : field_key * number) (l : list (field_key * number)) :
  find (fun e => if group_eq_dec (fst e) key then true else false)
    (filter (fun e => notna (snd e)) (map (fun k => (k, f k)) l))
  = if in_dec group_eq_dec key l
    then (if notna (f key) then Some (key, f key) else None)
    else None.
Proof.
  induction l as [|x l IH]; simpl; [reflexivity|].
  destruct (group_eq_dec x key) as [->|Hne].
  - destruct (notna (f key)) eqn:N; simpl.
    + now destruct (group_eq_dec key key).
    + rewrite IH. now destruct (in_dec group_eq_dec key l).
  - assert (E : find (fun e => if group_eq_dec (fst e) key then true else false)
                  (if notna (f x)
                   then (x, f x) :: filter (fun e => notna (snd e))
                                      (map (fun k => (k, f k)) l)
                   else filter (fun e => notna (snd e))
                          (map (fun k => (k, f k)) l))
                = find (fun e => if group_eq_dec (fst e) key then true else false)
                    (filter (fun e => notna (snd e)) (map (fun k => (k, f k)) l))).
    { destruct (notna (f x)); [|reflexivity]. simpl.
      now destruct (group_eq_dec x key). }
    rewrite E, IH.
    destruct (in_dec group_eq_dec key l) as [H|H]; [reflexivity|].
    reflexivity.
Qed.
End Lookup.

(** A cell of the pivot is the aggregate of its group; the group of a
    combination without rows is empty and aggregates to the marker. *)
Lemma lookup_agged (rows : list flight_row) (k : field_key) (p : number) :
  lookup (agged rows) k p = first_notna (group_values (grouped rows) (k, p)).
Proof.
  unfold lookup, agged.
  rewrite (find_keyed (fun k => first_notna (group_values (grouped rows) k))).
  set (v := first_notna (group_values (grouped rows) (k, p))).
  destruct (in_dec group_eq_dec (k, p) (nodup group_eq_dec (map fst (grouped rows))))
    as [H|H].
  - destruct (notna v) eqn:N; [reflexivity | symmetry; now apply isna_NaN].
  - destruct (notna v) eqn:N; [|symmetry; now apply isna_NaN].
    exfalso. apply H. apply nodup_In, in_map_iff.
    apply first_notna_notna in N as (x & Hx & _).
    apply in_group_values in Hx. now exists (k, p, x).
Qed.

Lemma live_true (r : flight_row) :
  live r = true <->
  key_complete (fr_index r) = true /\ (exists p, fr_pass r = Some p)
  /\ notna (resolved_text r) = true.
Proof.
  unfold live. rewrite !andb_true_iff. destruct (fr_pass r) as [p|].
  - intuition eauto.
  - intuition; try discriminate. destruct H as [p H]. discriminate.
Qed.

(** The groups that survive come from the live rows. *)
Lemma agged_live (rows : list flight_row) (k : field_key) (p : number) :
  (exists v, In (k, p, v) (agged rows)) <->
  exists r, In r rows /\ live r = true /\ fr_index r = k /\ fr_pass r = Some p.
Proof.
  split.
  - intros (v & Hin). apply in_agged in Hin as [-> N].
    apply first_notna_notna in N as (x & Hx & N).
    apply in_group_values, in_grouped in Hx as (r & Hr & Hk & Hp & C & Hv).
    exists r. repeat split; auto. apply live_true. subst. eauto.
  - intros (r & Hr & L & Hk & Hp). apply live_true in L as (C & _ & N).
    exists (first_notna (group_values (grouped rows) (k, p))).
    apply in_agged. split; [reflexivity|].
    apply first_notna_notna. exists (resolved_text r). split; [|exact N].
    apply in_group_values, in_grouped. exists r. subst. auto.
Qed.

Lemma in_pv_index (rows : list flight_row) (k : field_key) :
  In k (pv_index (pivot_table rows)) <->
  exists r, In r rows /\ live r = true /\ fr_index r = k.
Proof.
  unfold pivot_table. simpl. rewrite in_sort_by, nodup_In, in_map_iff. split.
  - intros ([[k' p] v] & <- & Hin). simpl.
    destruct (proj1 (agged_live rows k' p)) as (r & ? & ? & ? & ?); eauto.
  - intros (r & Hr & L & Hk).
    destruct (proj1 (live_true r) L) as (_ & [p Hp] & _).
    destruct (proj2 (agged_live rows k p)) as (v & Hv); [eauto|].
    now exists (k, p, v).
Qed.

Lemma in_pv_columns (rows : list flight_row) (p : number) :
  In p (pv_columns (pivot_table rows)) <->
  exists r, In r rows /\ live r = true /\ fr_pass r = Some p.
Proof.
  unfold pivot_table. simpl. rewrite in_sort_by, nodup_In, in_map_iff. split.
  - intros ([[k p'] v] & <- & Hin). simpl.
    destruct (proj1 (agged_live rows k p')) as (r & ? & ? & ? & ?); eauto.
  - intros (r & Hr & L & Hp).
    destruct (proj2 (agged_live rows (fr_index r) p)) as (v & Hv); [eauto|].
    now exists (fr_index r, p, v).
Qed.


Lemma NoDup_pv_columns (rows : list flight_row) :
  NoDup (pv_columns (pivot_table rows)).
Proof. unfold pivot_table. simpl. apply NoDup_sort_by, NoDup_nodup. Qed.

(** ** Narrative resolution *)

(** C2.  For a row as it is read from the file, the resolved narrative is
    the primary one when that is there and not empty, and the fallback one
    when the primary one is absent or empty (an empty field of the file is
    read as the missing-value marker). *)
Theorem resolved_text_combine_first (o : observation) :
  csv_cell (mission_rec o) = true ->
  (absent_or_empty (mission_rec o) = false ->
     resolved_text (resolve o) = mission_rec o)
  /\ (absent_or_empty (mission_rec o) = true ->
       resolved_text (resolve o) = ag_assistant o).
Proof.
  unfold resolve, combine_first, notna. cbn [resolved_text].
  destruct (mission_rec o) as [| z | [|c s]]; cbn; intros Hcsv;
    split; intros H; congruence.
Qed.

Lemma resolved_text_combine_first_witness :
  resolved_text (resolve (nth 0 two_passes empty_primary))
  = Str " tar spot in the NE corner "
  /\ resolved_text (resolve (nth 1 two_passes empty_primary))
     = Str "stand is even".
Proof.
  split.
  - apply (proj2 (resolved_text_combine_first (nth 0 two_passes empty_primary)
                    eq_refl)).
    reflexivity.
  - apply (proj1 (resolved_text_combine_first (nth 1 two_passes empty_primary)
                    eq_refl)).
    reflexivity.
Defined.

(** ** The pivot *)

Lemma combine_app {A B : Type} (a c : list A) (b d : list B) :
  List.length a = List.length b ->
  combine (a ++ c)%list (b ++ d)%list = (combine a b ++ combine c d)%list.
Proof.
  revert b. induction a as [|x a IH]; intros [|y b] H; simpl in *;
    try discriminate; [reflexivity|].
  f_equal. apply IH. lia.
Qed.

Lemma values_at_app (r1 r2 : Series) (label : string) :
  values_at (r1 ++ r2)%list label
  = (values_at r1 label ++ values_at r2 label)%list.
Proof. unfold values_at. now rewrite filter_app, map_app. Qed.

(** The flight columns hold nothing under a label that is no flight label. *)
Lemma values_at_flights_other (f : number -> value) (cols : list number)
    (label : string) :
  (forall n, label <> flight_label n) ->
  values_at (combine (map column_label cols) (map f cols)) label = [].
Proof.
  intros Hl. induction cols as [|c cols IH]; [reflexivity|].
  unfold values_at in *. cbn [map combine filter fst].
  destruct (String.eqb_spec (column_label c) label) as [E|E]; [|exact IH].
  exfalso. exact (Hl (int_of c) (eq_sym E)).
Qed.

(** Under a flight label they hold the cells of the pass numbers whose
    integer part is the number of the label, in column order. *)
Lemma values_at_flights (f : number -> value) (cols : list number) (n : Z) :
  values_at (combine (map column_label cols) (map f cols)) (flight_label n)
  = map f (filter (fun c => int_of c =? n) cols).
Proof.
  induction cols as [|c cols IH]; [reflexivity|].
  unfold values_at in *. cbn [map combine filter fst].
  destruct (String.eqb_spec (column_label c) (flight_label n)) as [E|E].
  - apply flight_label_inj in E. rewrite E, Z.eqb_refl. cbn [map snd].
    now rewrite IH.
  - destruct (Z.eqb_spec (int_of c) n) as [E'|E'];
      [exfalso; apply E; unfold column_label; now rewrite E' | exact IH].
Qed.

Lemma index_name_not_flight (label : string) :
  In label index_names -> forall n, label <> flight_label n.
Proof.
  unfold index_names, flight_label. simpl.
  intros [<-|[<-|[<-|[<-|[<-|[<-|[]]]]]]] n; discriminate.
Qed.

(** A row of the pivoted table under the label of one of its attributes. *)
Lemma get_index_name (k : field_key) (f : number -> value) (cols : list number)
    (label : string) :
  In label index_names ->
  get (combine (index_names ++ map column_label cols)%list
         (key_values k ++ map f cols)%list) label
  = get (combine index_names (key_values k)) label.
Proof.
  intros Hl. unfold get.
  rewrite combine_app by reflexivity.
  rewrite values_at_app, values_at_flights_other, app_nil_r;
    [reflexivity | now apply index_name_not_flight].
Qed.

Lemma in_iterrows_pivot (df : DataFrame) (row : Series) :
  In row (iterrows (pivot_flights df)) ->
  exists k,
    In k (pv_index (pivot_table (drop_duplicates (map resolve df))))
    /\ get row "field_name" = Some (field_name k)
    /\ get row "field_id" = Some (field_id k)
    /\ get row "client_name" = Some (client_name k).
Proof.
  unfold iterrows, pivot_flights. cbn [columns rows].
  rewrite map_map, in_map_iff. intros (k & <- & Hk).
  exists k. split; [exact Hk|].
  rewrite !get_index_name by (unfold index_names; simpl; auto).
  repeat split.
Qed.




(** ** Fields without narratives *)

(** C9.  A field all of whose resolved narratives are the missing-value
    marker has no row in the pivoted table, whatever the other fields
    hold. *)
Theorem pivot_drops_silent_field (df : DataFrame) (fid : value) :
  (forall o, In o df -> field_id (obs_index o) = fid ->
             resolved_text (resolve o) = NaN) ->
  (forall k, In k (pv_index (pivot_table (drop_duplicates (map resolve df)))) ->
             field_id k <> fid)
  /\ (forall row, In row (iterrows (pivot_flights df)) ->
                  get row "field_id" <> Some fid).
Proof.
  intros Hsilent.
  assert (A : forall k,
             In k (pv_index (pivot_table (drop_duplicates (map resolve df)))) ->
             field_id k <> fid).
  { intros k Hk Hid. apply in_pv_index in Hk as (r & Hr & L & Hrk).
    apply drop_duplicates_incl, in_map_iff in Hr as (o & <- & Ho).
    apply live_true in L as (_ & _ & N).
    rewrite (Hsilent o Ho) in N; [discriminate|].
    simpl in Hrk. now rewrite Hrk. }
  split; [exact A|].
  intros row Hrow Hget.
  apply in_iterrows_pivot in Hrow as (k & Hk & _ & Hid & _).
  rewrite Hid in Hget. injection Hget as Hget. exact (A k Hk Hget).
Qed.

Lemma pivot_drops_silent_field_witness :
  In south (map obs_index silent_field)
  /\ ~ In (Some (Scalar (Str "F2")))
         (map (fun row => get row "field_id") (iterrows (pivot_flights silent_field))).
Proof.
  split; [simpl; auto|].
  intros H. apply in_map_iff in H as (row & Hget & Hrow).
  refine (proj2 (pivot_drops_silent_field silent_field (Str "F2") _) row Hrow Hget).
  intros o [<-|[<-|[]]]; simpl; [discriminate | reflexivity].
Defined.


(** ** The retry loop *)

Lemma range_nil (lo hi : Z) : hi <= lo -> Py.range lo hi = [].
Proof.
  intros H. unfold Py.range.
  replace (Z.to_nat (hi - lo)) with 0%nat by lia. reflexivity.
Qed.

Lemma range_cons (lo hi : Z) :
  lo < hi -> Py.range lo hi = lo :: Py.range (lo + 1) hi.
Proof.
  intros H. unfold Py.range.
  replace (Z.to_nat (hi - lo)) with (S (Z.to_nat (hi - (lo + 1)))) by lia.
  simpl. f_equal; [lia|].
  rewrite <- seq_shift, map_map. apply map_ext. intros k. lia.
Qed.

(** A request costs one call; what it gives is the [outcome] of that call. *)
Lemma request_eq (client : Client) (model input : string) (w : world) :
  request client model input w =
  (match outcome client model input (calls w) with
   | Ok text => Ok (Some text)
   | Raised e => Raised e
   end,
   {| calls := S (calls w); slept := slept w |}).
Proof.
  unfold request, bind, create, outcome, lift.
  destruct (client model input (calls w)) as [r|d]; [|reflexivity].
  destruct (message_text r); reflexivity.
Qed.

Lemma summarize_row_unfold (client : Client) (model : string) (row : Series)
    (retries : Z) (backoff : pyfloat) (fname fid cname : item) (w : world) :
  get row "field_name" = Some fname ->
  get row "field_id" = Some fid ->
  get row "client_name" = Some cname ->
  summarize_row client model row retries backoff w =
  retry_loop client model (request_input fname fid cname (build_flight_blob row))
    retries backoff (Py.range 0 retries) w.
Proof.
  intros H1 H2 H3. unfold summarize_row, getitem, bind.
  rewrite H1. unfold ret at 1. rewrite H2. unfold ret at 1. rewrite H3.
  reflexivity.
Qed.

(** *** Sleeping *)

Lemma below_conversion_limit (q : Q) :
  Qle_bool 0 q = true -> Qle_bool sleep_limit q = false ->
  Qle_bool conversion_limit (Qabs q) = false.
Proof.
  intros H0 Hl. apply Qle_bool_iff in H0.
  destruct (Qle_bool conversion_limit (Qabs q)) eqn:E; [|reflexivity].
  apply Qle_bool_iff in E. rewrite (Qabs_pos q H0) in E.
  assert (L : Qle_bool sleep_limit q = true).
  { apply Qle_bool_iff. eapply Qle_trans; [|exact E].
    unfold sleep_limit, conversion_limit, Qle. simpl. lia. }
  congruence.
Qed.

Lemma sleep_sleepable (q : Q) (w : world) :
  sleepable (Finite q) = true ->
  sleep (Finite q) w
  = (Ok tt, {| calls := calls w; slept := (slept w ++ [q])%list |}).
Proof.
  unfold sleepable, sleep. intros H.
  apply andb_true_iff in H as [H0 Hl]. apply negb_true_iff in Hl.
  now rewrite (below_conversion_limit q H0 Hl), H0, Hl.
Qed.

Lemma sleepable_finite (d : pyfloat) :
  sleepable d = true -> exists q, d = Finite q.
Proof. destruct d; try discriminate. eauto. Qed.

(** A delay that is not one [time.sleep] takes makes it raise, and nothing
    is slept. *)
Lemma sleep_refused (d : pyfloat) (w : world) :
  sleepable d = false -> exists e, sleep d w = (Raised e, w).
Proof.
  unfold sleepable, sleep, raise. destruct d as [q| | |]; intros H; eauto.
  destruct (Qle_bool conversion_limit (Qabs q)); eauto.
  destruct (Qle_bool 0 q); cbn [negb andb] in *; eauto.
  apply negb_false_iff in H. rewrite H. eauto.
Qed.

Lemma refused_not_sleepable (d : pyfloat) :
  refused d = true -> sleepable d = false.
Proof.
  unfold refused, sleepable. destruct d as [q| | |]; try reflexivity.
  intros H. destruct (Qle_bool 0 q) eqn:H0; [|reflexivity].
  cbn [negb orb andb] in *.
  destruct (Qle_bool sleep_limit q) eqn:Hl; [reflexivity|].
  now rewrite (below_conversion_limit q H0 Hl) in H.
Qed.

(** The pause after a failed attempt that is to be retried, and what
    follows it. *)
Lemma pause {A : Type} (backoff : pyfloat) (attempt : Z) (q : Q) (k : M A)
    (w : world) :
  nap backoff attempt = Some q ->
  (d <- times backoff (attempt + 1) ;; _ <- sleep d ;; k) w
  = k {| calls := calls w; slept := (slept w ++ [q])%list |}.
Proof.
  unfold nap, times, bind.
  destruct (round64 (inject_Z (attempt + 1))) as [m|]; [|discriminate].
  unfold ret. destruct (fmul backoff (Finite m)) as [x| | |]; try discriminate.
  destruct (sleepable (Finite x)) eqn:S; [|discriminate].
  intros [= <-]. now rewrite sleep_sleepable.
Qed.

(** A pause that [time.sleep] refuses ends the call. *)
Lemma pause_refused {A : Type} (backoff : pyfloat) (attempt : Z) (k : M A)
    (w : world) :
  nap backoff attempt = None ->
  exists e,
    (d <- times backoff (attempt + 1) ;; _ <- sleep d ;; k) w = (Raised e, w).
Proof.
  unfold nap, times, bind.
  destruct (round64 (inject_Z (attempt + 1))) as [m|]; [|unfold raise; eauto].
  unfold ret. intros H.
  destruct (sleep_refused (fmul backoff (Finite m)) w) as [e He].
  - destruct (fmul backoff (Finite m)) as [x| | |]; try reflexivity.
    destruct (sleepable (Finite x)); [discriminate | reflexivity].
  - exists e. now rewrite He.
Qed.

Lemma refused_product (backoff : pyfloat) (attempt : Z) :
  (forall d, backoff_product backoff attempt = Some d -> refused d = true) ->
  nap backoff attempt = None.
Proof.
  unfold backoff_product, nap.
  destruct (round64 (inject_Z (attempt + 1))) as [m|]; [|reflexivity].
  cbn [option_map]. intros H.
  pose proof (refused_not_sleepable _ (H _ eq_refl)) as N.
  destruct (fmul backoff (Finite m)) as [x| | |]; try reflexivity.
  now rewrite N.
Qed.

Lemma map_nap_cons (backoff : pyfloat) (a b : Z) (naps : list Q) :
  a < b ->
  map (nap backoff) (Py.range a b) = map Some naps ->
  exists q rest,
    naps = q :: rest /\ nap backoff a = Some q
    /\ map (nap backoff) (Py.range (a + 1) b) = map Some rest.
Proof.
  intros Hab. rewrite range_cons by lia. cbn [map].
  destruct naps as [|q rest]; [discriminate|]. cbn [map].
  intros [= Hq Hrest]. eauto.
Qed.

(** *** The loop *)


(** The loop when the attempt [n] from here is the first that answers. *)
Lemma retry_loop_succeeds (client : Client) (model input : string)
    (retries : Z) (backoff : pyfloat) (text : string) (n : nat) :
  forall (a : Z) (w : world) (naps : list Q),
    a + Z.of_nat n < retries ->
    (forall j, (j < n)%nat ->
               exists e, outcome client model input (calls w + j) = Raised e) ->
    outcome client model input (calls w + n) = Ok text ->
    map (nap backoff) (Py.range a (a + Z.of_nat n)) = map Some naps ->
    retry_loop client model input retries backoff (Py.range a retries) w
    = (Ok (Some text),
       {| calls := calls w + S n; slept := (slept w ++ naps)%list |}).
Proof.
  induction n as [|n IH]; intros a w naps Ha Hfail Hok Hnaps.
  - rewrite range_cons by lia. rewrite (range_nil a) in Hnaps by lia.
    destruct naps; [|discriminate].
    cbn [retry_loop]. unfold try_except. rewrite request_eq.
    rewrite Nat.add_0_r in Hok. rewrite Hok. rewrite app_nil_r.
    f_equal. f_equal. lia.
  - destruct (Hfail 0%nat (Nat.lt_0_succ _)) as [e0 He0].
    rewrite Nat.add_0_r in He0.
    destruct (map_nap_cons backoff a (a + Z.of_nat (S n)) naps)
      as (q & rest & -> & Hq & Hrest); [lia | exact Hnaps |].
    set (w1 := {| calls := S (calls w); slept := (slept w ++ [q])%list |}).
    assert (Hloop := IH (a + 1) w1 rest).
    rewrite range_cons by lia.
    cbn [retry_loop]. unfold try_except. rewrite request_eq, He0.
    replace (a =? retries - 1) with false by (symmetry; apply Z.eqb_neq; lia).
    rewrite (pause _ _ _ _ _ Hq).
    cbn [calls slept]. fold w1. rewrite Hloop.
    + unfold w1. cbn [calls slept]. rewrite <- app_assoc.
      f_equal; f_equal; try lia; auto.
    + lia.
    + intros j Hj. destruct (Hfail (S j)) as [e' He']; [lia|].
      exists e'. unfold w1. cbn [calls].
      now replace (S (calls w) + j)%nat with (calls w + S j)%nat by lia.
    + unfold w1. cbn [calls].
      now replace (S (calls w) + n)%nat with (calls w + S n)%nat by lia.
    + now replace (a + 1 + Z.of_nat n) with (a + Z.of_nat (S n)) by lia.
Qed.

(** The delays of the default back-off: 2 and 4. *)
Lemma default_naps :
  map (nap default_backoff) (Py.range 0 (default_retries - 1))
  = map Some [(default_backoff * inject_Z 1)%Q; (default_backoff * inject_Z 2)%Q].
Proof. vm_compute. reflexivity. Qed.

(** C5.  With the default configuration, two failed attempts and a third
    that answers: the call returns the text of the answer, and it has slept
    [backoff * 1] before the second attempt and [backoff * 2] before the
    third, 2 and 4, six in all. *)
Theorem summarize_row_third_attempt (client : Client) (model : string)
    (row : Series) (fname fid cname : value) (w : world) (e1 e2 : exn)
    (resp : response) (msg : output_item) (text : string) (rest : list string) :
  get row "field_name" = Some fname ->
  get row "field_id" = Some fid ->
  get row "client_name" = Some cname ->
  outcome client model (request_input fname fid cname (build_flight_blob row))
    (calls w) = Raised e1 ->
  outcome client model (request_input fname fid cname (build_flight_blob row))
    (S (calls w)) = Raised e2 ->
  client model (request_input fname fid cname (build_flight_blob row))
    (S (S (calls w))) = Response resp ->
  find is_message resp = Some msg ->
  item_content msg = text :: rest ->
  summarize_row client model row default_retries default_backoff w
  = (Ok (Some (Py.strip text)),
     {| calls := S (S (S (calls w)));
        slept := (slept w ++ [(default_backoff * inject_Z 1)%Q;
                              (default_backoff * inject_Z 2)%Q])%list |})
  /\ (default_backoff * inject_Z 1 == 2)%Q
  /\ (default_backoff * inject_Z 2 == 4)%Q
  /\ (default_backoff * inject_Z 1 + default_backoff * inject_Z 2 == 6)%Q.
Proof.
  intros H1 H2 H3 F1 F2 R Hmsg Htext.
  split; [|repeat split; reflexivity].
  rewrite (summarize_row_unfold _ _ _ _ _ _ _ _ _ H1 H2 H3).
  set (input := request_input fname fid cname (build_flight_blob row)) in *.
  assert (S3 : outcome client model input (calls w + 2) = Ok (Py.strip text)).
  { replace (calls w + 2)%nat with (S (S (calls w))) by lia.
    unfold outcome. rewrite R. unfold message_text. now rewrite Hmsg, Htext. }
  rewrite (retry_loop_succeeds client model input default_retries default_backoff
             (Py.strip text) 2 0 w
             [(default_backoff * inject_Z 1)%Q; (default_backoff * inject_Z 2)%Q]).
  - f_equal. f_equal. lia.
  - reflexivity.
  - intros j Hj. destruct j as [|[|j]]; [| |lia].
    + exists e1. now rewrite Nat.add_0_r.
    + exists e2. now replace (calls w + 1)%nat with (S (calls w)) by lia.
  - exact S3.
  - exact default_naps.
Qed.

Lemma summarize_row_third_attempt_witness :
  summarize_row third_time_lucky "gpt-4.1" north_row default_retries default_backoff
    new_world
  = (Ok (Some "Even stand early."), {| calls := 3; slept := [2; 4]%Q |}).
Proof.
  apply (summarize_row_third_attempt third_time_lucky "gpt-4.1" north_row
           (Str "North 40") (Str "F1") (Str "Acme") new_world
           (ServiceError "connection reset") (ServiceError "connection reset")
           answer {| item_type := Some "message";
                     item_content := [" Even stand early. "] |}
           " Even stand early. " []);
    reflexivity.
Defined.

(** C10.  With [retries = 0] the loop body is never entered: no request is
    made, nothing is slept, and the call returns [None], which is no text. *)
Theorem summarize_row_no_retries (client : Client) (model : string)
    (row : Series) (fname fid cname : value) (backoff : Q) (w : world) :
  get row "field_name" = Some fname ->
  get row "field_id" = Some fid ->
  get row "client_name" = Some cname ->
  summarize_row client model row 0 backoff w = (Ok None, w).
Proof.
  intros H1 H2 H3.
  now rewrite (summarize_row_unfold _ _ _ _ _ _ _ _ _ H1 H2 H3).
Qed.

Lemma summarize_row_no_retries_witness :
  summarize_row third_time_lucky "gpt-4.1" north_row 0 2 new_world
  = (Ok None, new_world).
Proof.
  apply (summarize_row_no_retries third_time_lucky "gpt-4.1" north_row
           (Str "North 40") (Str "F1") (Str "Acme") 2%Q new_world);
    reflexivity.
Defined.

(** ** The whole run *)

(** What the loop costs, whatever the service does, when [time.sleep]
    takes every back-off delay. *)
Lemma retry_loop_cost (client : Client) (model input : string)
    (retries : Z) (backoff : pyfloat) (m : nat) :
  forall (a : Z) (w : world) (naps : list Q),
    a + Z.of_nat (S m) = retries ->
    map (nap backoff) (Py.range a (retries - 1)) = map Some naps ->
    exists s w' n,
      retry_loop client model input retries backoff (Py.range a retries) w
      = (Ok (Some s), w')
      /\ (1 <= n <= S m)%nat
      /\ calls w' = (calls w + n)%nat
      /\ slept w' = (slept w ++ firstn (n - 1) naps)%list.
Proof.
  induction m as [|m IH]; intros a w naps Ha Hnaps.
  - rewrite range_cons by lia. rewrite (range_nil (a + 1)) by lia.
    cbn [retry_loop]. unfold try_except. rewrite request_eq.
    destruct (outcome client model input (calls w)) as [text|e].
    + exists text, {| calls := S (calls w); slept := slept w |}, 1%nat.
      cbn [calls slept Nat.sub firstn]. rewrite app_nil_r. repeat split; lia.
    + replace (a =? retries - 1) with true by (symmetry; apply Z.eqb_eq; lia).
      exists (error_marker e), {| calls := S (calls w); slept := slept w |}, 1%nat.
      cbn [calls slept Nat.sub firstn]. rewrite app_nil_r.
      unfold ret. repeat split; lia.
  - rewrite range_cons by lia.
    cbn [retry_loop]. unfold try_except. rewrite request_eq.
    destruct (outcome client model input (calls w)) as [text|e].
    + exists text, {| calls := S (calls w); slept := slept w |}, 1%nat.
      cbn [calls slept Nat.sub firstn]. rewrite app_nil_r. repeat split; lia.
    + replace (a =? retries - 1) with false by (symmetry; apply Z.eqb_neq; lia).
      destruct (map_nap_cons backoff a (retries - 1) naps)
        as (q & rest & -> & Hq & Hrest); [lia | exact Hnaps |].
      rewrite (pause _ _ _ _ _ Hq). cbn [calls slept].
      destruct (IH (a + 1)
                  {| calls := S (calls w); slept := (slept w ++ [q])%list |} rest)
        as (s & w' & n & Hloop & Hn & Hcalls & Hslept); [lia | exact Hrest |].
      exists s, w', (S n). split; [exact Hloop|].
      cbn [calls slept] in Hcalls, Hslept.
      split; [lia|]. split; [lia|].
      rewrite Hslept, <- app_assoc.
      replace (S n - 1)%nat with (S (n - 1)) by lia. reflexivity.
Qed.

Lemma has_columns_pivot (df : DataFrame) (row : Series) :
  In row (iterrows (pivot_flights df)) ->
  exists a b c : item,
    get row "field_name" = Some a /\ get row "field_id" = Some b
    /\ get row "client_name" = Some c.
Proof.
  intros Hrow. apply in_iterrows_pivot in Hrow as (k & _ & Ha & Hb & Hc).
  exists (Scalar (field_name k)), (Scalar (field_id k)), (Scalar (client_name k)).
  auto.
Qed.

(** What the loop over the fields costs, whatever the service does, when
    [time.sleep] takes the delay between two fields. *)
Lemma summarize_all_cost (client : Client) (args : arguments) (todo : list Series) :
  sleepable (delay args) = true ->
  (forall row, In row todo ->
     exists a b c : item,
       get row "field_name" = Some a /\ get row "field_id" = Some b
       /\ get row "client_name" = Some c) ->
  forall w, exists texts w' naps,
    summarize_all client args todo w = (Ok (map Some texts), w')
    /\ List.length texts = List.length todo
    /\ (calls w + List.length todo <= calls w'
        <= calls w + 3 * List.length todo)%nat
    /\ slept w' = (slept w ++ naps)%list
    /\ (List.length todo <= List.length naps <= 3 * List.length todo)%nat.
Proof.
  intros Hdelay.
  destruct (sleepable_finite _ Hdelay) as [dl Hdl]. rewrite Hdl in Hdelay.
  induction todo as [|row later IH]; intros Hcols w.
  - exists [], w, []. cbn. rewrite app_nil_r. repeat split; lia.
  - destruct (Hcols row (or_introl eq_refl)) as (a & b & c & Ha & Hb & Hc).
    destruct (retry_loop_cost client (model args)
                (request_input a b c (build_flight_blob row))
                default_retries default_backoff 2 0 w _ eq_refl default_naps)
      as (s & w1 & n & Hloop & Hn & Hcalls & Hslept).
    destruct (IH (fun r Hr => Hcols r (or_intror Hr))
                {| calls := calls w1; slept := (slept w1 ++ [dl])%list |})
      as (texts & w2 & naps & Hall & Hlen & Hc2 & Hs2 & Hn2).
    cbn [calls slept] in Hc2, Hs2.
    exists (s :: texts), w2,
      (firstn (n - 1)
         [(default_backoff * inject_Z 1)%Q; (default_backoff * inject_Z 2)%Q]
       ++ dl :: naps)%list.
    split.
    { cbn [summarize_all]. unfold bind at 1.
      rewrite (summarize_row_unfold _ _ _ _ _ _ _ _ _ Ha Hb Hc), Hloop.
      unfold bind at 1. rewrite Hdl, (sleep_sleepable _ _ Hdelay).
      unfold bind at 1. rewrite Hall. reflexivity. }
    split; [simpl; now rewrite Hlen|].
    split; [simpl List.length; lia|].
    split.
    { rewrite Hs2, Hslept, <- !app_assoc. reflexivity. }
    rewrite length_app, length_firstn. simpl List.length. lia.
Qed.

Lemma main_table_cost (client : Client) (args : arguments) (df : DataFrame)
    (w : world) :
  sleepable (delay args) = true ->
  exists texts w' naps,
    main_table client args df w
    = (Ok (with_summaries (pivot_flights df) (map Some texts)), w')
    /\ List.length texts = List.length (rows (pivot_flights df))
    /\ (calls w + List.length (rows (pivot_flights df)) <= calls w'
        <= calls w + 3 * List.length (rows (pivot_flights df)))%nat
    /\ slept w' = (slept w ++ naps)%list
    /\ (List.length (rows (pivot_flights df)) <= List.length naps
        <= 3 * List.length (rows (pivot_flights df)))%nat.
Proof.
  intros Hdelay.
  destruct (summarize_all_cost client args (iterrows (pivot_flights df))
              Hdelay (has_columns_pivot df) w)
    as (texts & w' & naps & Hall & Hlen & Hc & Hs & Hn).
  assert (L : List.length (iterrows (pivot_flights df))
              = List.length (rows (pivot_flights df)))
    by (unfold iterrows; apply length_map).
  rewrite L in *.
  exists texts, w', naps. split; [|auto].
  unfold main_table, bind. now rewrite Hall.
Qed.




(** ** The output file name *)

Lemma append_empty_r (s : string) : s ++ "" = s.
Proof. induction s as [|c s IH]; simpl; [reflexivity | now rewrite IH]. Qed.

Lemma substring_whole (s : string) : substring 0 (String.length s) s = s.
Proof. induction s as [|c s IH]; simpl; [reflexivity | now rewrite IH]. Qed.

Lemma substring_split (n : nat) :
  forall s, (n <= String.length s)%nat ->
            substring 0 n s ++ substring n (String.length s - n) s = s.
Proof.
  induction n as [|n IH]; intros s H.
  - rewrite Nat.sub_0_r, substring_whole. now destruct s.
  - destruct s as [|c s]; simpl in *; [lia|].
    rewrite IH by lia. reflexivity.
Qed.

Lemma stem_suffix_name (p : string) :
  path_stem p ++ path_suffix p = path_name p.
Proof.
  unfold path_stem, path_suffix.
  destruct ((0 <? rfind_dot (path_name p))
            && (rfind_dot (path_name p) <? len (path_name p) - 1)) eqn:E.
  - apply andb_true_iff in E as [E1 E2].
    apply Z.ltb_lt in E1. apply Z.ltb_lt in E2. unfold len in E2.
    apply substring_split. lia.
  - apply append_empty_r.
Qed.

(** C7.  Without an output path the output file is named after the input
    file, with "-summarized" between its stem and its extension; an output
    path that is given (a non-empty text) is taken as it is. *)
Theorem output_name_default (args : arguments) :
  (output args = None ->
     output_name args
     = path_stem (input args) ++ "-summarized" ++ path_suffix (input args)
     /\ path_stem (input args) ++ path_suffix (input args) = path_name (input args))
  /\ (forall o, output args = Some o -> o <> "" -> output_name args = o).
Proof.
  unfold output_name. split.
  - intros ->. split; [reflexivity | apply stem_suffix_name].
  - intros o -> Hne. destruct o; [congruence | reflexivity].
Qed.

Lemma output_name_default_witness :
  output sample_args = None
  /\ output_name sample_args = "scouting.2024-summarized.csv".
Proof.
  split; [reflexivity|].
  exact (proj1 (proj1 (output_name_default sample_args) eq_refl)).
Defined.

(** An output path that is the empty text counts as none. *)
Lemma output_name_empty (i m : string) (d : pyfloat) :
  output_name {| input := i; output := Some ""; model := m; delay := d |}
  = default_output i.
Proof. reflexivity. Qed.

(** ** The shape of the table that is written *)











(** * Further properties of the code *)

(** ** The blob builder *)

Lemma blob_of_slot_lines (row1 row2 : Series) :
  (forall i, 1 <= i <= 6 -> slot_lines row1 i = slot_lines row2 i) ->
  build_flight_blob row1 = build_flight_blob row2.
Proof.
  intros S. unfold build_flight_blob. rewrite !flight_parts_slots.
  cbn [flat_map]. now rewrite !S by lia.
Qed.

(** X1.  The blob reads the six cells "Flight 1" .. "Flight 6" and nothing
    else: two rows that agree on these six labels have the same blob. *)
Theorem build_flight_blob_reads_six_cells (row1 row2 : Series) :
  (forall i, 1 <= i <= 6 ->
             get row1 (flight_label i) = get row2 (flight_label i)) ->
  build_flight_blob row1 = build_flight_blob row2.
Proof.
  intros H. apply blob_of_slot_lines. intros i Hi.
  unfold slot_lines, narrative_at. now rewrite (H i Hi).
Qed.

Lemma build_flight_blob_reads_six_cells_witness :
  build_flight_blob noisy_row = build_flight_blob north_row.
Proof.
  apply (build_flight_blob_reads_six_cells noisy_row north_row).
  intros i Hi.
  assert (E : i = 1 \/ i = 2 \/ i = 3 \/ i = 4 \/ i = 5 \/ i = 6) by lia.
  destruct E as [->|[->|[->|[->|[->| ->]]]]]; reflexivity.
Defined.

Lemma slot_lines_cases (row : Series) (i : Z) :
  slot_lines row i = [] \/ exists t, slot_lines row i = [bullet i t].
Proof.
  unfold slot_lines. destruct (narrative_at row i) as [t|]; eauto.
Qed.

(** X2.  The blob is made of at most six entries, one for each flight slot
    that has a narrative, joined by line feeds, or it is the placeholder; it
    is never empty and always starts with "- ".  An entry is one line unless
    its narrative holds line feeds of its own, which are kept: the blob of
    a single narrative can have two lines. *)
Theorem build_flight_blob_bounds :
  (forall row,
      (List.length (flight_parts row) <= 6)%nat
      /\ build_flight_blob row
         = match flight_parts row with
           | [] => "- No flight narratives available."
           | parts => spec_join parts
           end
      /\ exists rest, build_flight_blob row = "- " ++ rest)
  /\ build_flight_blob [("Flight 1", Str "even stand
tar spot NE")]
     = "- Flight 1: even stand
tar spot NE".
Proof.
  split; [|reflexivity].
  intros row. split; [|split; [apply blob_of_parts|]].
  - rewrite flight_parts_slots. cbn [flat_map].
    destruct (slot_lines_cases row 1) as [-> | [t1 ->]];
    destruct (slot_lines_cases row 2) as [-> | [t2 ->]];
    destruct (slot_lines_cases row 3) as [-> | [t3 ->]];
    destruct (slot_lines_cases row 4) as [-> | [t4 ->]];
    destruct (slot_lines_cases row 5) as [-> | [t5 ->]];
    destruct (slot_lines_cases row 6) as [-> | [t6 ->]];
    simpl; lia.
  - unfold build_flight_blob. rewrite flight_parts_slots. cbn [flat_map].
    destruct (slot_lines_cases row 1) as [-> | [t1 ->]];
    destruct (slot_lines_cases row 2) as [-> | [t2 ->]];
    destruct (slot_lines_cases row 3) as [-> | [t3 ->]];
    destruct (slot_lines_cases row 4) as [-> | [t4 ->]];
    destruct (slot_lines_cases row 5) as [-> | [t5 ->]];
    destruct (slot_lines_cases row 6) as [-> | [t6 ->]];
    (eexists; cbn [app Py.join]; unfold bullet, no_narratives;
     simpl; reflexivity).
Qed.

(** ** Trimming *)

Lemma string_length_app (a b : string) :
  String.length (a ++ b) = (String.length a + String.length b)%nat.
Proof. induction a as [|c a IH]; simpl; [reflexivity | now rewrite IH]. Qed.

Lemma append_empty_right (s : string) : s ++ "" = s.
Proof. induction s as [|c s IH]; simpl; [reflexivity | now rewrite IH]. Qed.

Lemma append_assoc3 (a b c : string) : (a ++ b) ++ c = a ++ (b ++ c).
Proof. induction a as [|x a IH]; simpl; [reflexivity | now rewrite IH]. Qed.

Lemma reverse_app (a b : string) :
  Py.reverse (a ++ b) = Py.reverse b ++ Py.reverse a.
Proof.
  induction a as [|x a IH]; simpl.
  - now rewrite append_empty_right.
  - now rewrite IH, append_assoc3.
Qed.

Lemma reverse_involutive (s : string) : Py.reverse (Py.reverse s) = s.
Proof.
  induction s as [|x s IH]; simpl; [reflexivity|].
  now rewrite reverse_app, IH.
Qed.

(** What [drop_prefix] gives back is the text behind the prefix. *)
Lemma drop_prefix_Some (p s r : string) :
  Py.drop_prefix p s = Some r <-> s = p ++ r.
Proof.
  revert s. induction p as [|a p IH]; intros s; simpl.
  - split; [now intros [= ->] | now intros ->].
  - destruct s as [|b s]; [split; discriminate|].
    destruct (Ascii.eqb_spec a b) as [->|N].
    + rewrite IH. split; [now intros -> | now intros [= ->]].
    + split; [discriminate | intros [= E _]; congruence].
Qed.

Lemma drop_any_Some (chars : list string) (s r : string) :
  Py.drop_any chars s = Some r -> exists c, In c chars /\ s = c ++ r.
Proof.
  induction chars as [|c chars IH]; simpl; [discriminate|].
  destruct (Py.drop_prefix c s) as [x|] eqn:E.
  - intros [= ->]. apply drop_prefix_Some in E. eauto.
  - intros H. destruct (IH H) as (c' & Hc & Hs). eauto.
Qed.

(** A text that starts with one of the characters loses something. *)
Lemma drop_any_starts (chars : list string) (c s : string) :
  In c chars -> exists r, Py.drop_any chars (c ++ s) = Some r.
Proof.
  induction chars as [|x chars IH]; simpl; [tauto|].
  intros [->|Hc].
  - rewrite (proj2 (drop_prefix_Some c (c ++ s) s) eq_refl). eauto.
  - destruct (Py.drop_prefix x (c ++ s)); eauto.
Qed.

Lemma drop_any_None_app (chars : list string) (s t : string) :
  Py.drop_any chars (s ++ t) = None -> Py.drop_any chars s = None.
Proof.
  intros H. destruct (Py.drop_any chars s) as [r|] eqn:E; [|reflexivity].
  apply drop_any_Some in E as (c & Hc & ->).
  rewrite append_assoc3 in H.
  destruct (drop_any_starts chars c (r ++ t) Hc) as [x Hx]. congruence.
Qed.

(** The loop of [lstrip] stops at a text that starts with none of the
    characters, and what it gives is the end of the text. *)
Lemma lstrip_upto_spec (chars : list string) :
  (forall c, In c chars -> c <> "") ->
  forall n s, (String.length s <= n)%nat ->
    Py.drop_any chars (Py.lstrip_upto chars n s) = None
    /\ exists pre, s = pre ++ Py.lstrip_upto chars n s.
Proof.
  intros Hne. induction n as [|n IH]; intros s Hs.
  - destruct s; [|simpl in Hs; lia]. simpl. split; [|now exists ""].
    destruct (Py.drop_any chars "") as [r|] eqn:E; [|reflexivity].
    apply drop_any_Some in E as (c & Hc & E).
    destruct c; [now elim (Hne _ Hc) | discriminate].
  - simpl. destruct (Py.drop_any chars s) as [r|] eqn:E.
    + apply drop_any_Some in E as (c & Hc & ->).
      rewrite string_length_app in Hs.
      assert (L : (1 <= String.length c)%nat).
      { destruct c; [now elim (Hne _ Hc) | simpl; lia]. }
      destruct (IH r ltac:(lia)) as (Hd & pre & Hpre).
      split; [exact Hd|]. exists (c ++ pre).
      now rewrite append_assoc3, <- Hpre.
    + split; [exact E | now exists ""].
Qed.

Lemma whitespace_nonempty (c : string) : In c Py.whitespace -> c <> "".
Proof.
  intros H E. subst c. revert H. vm_compute. intuition discriminate.
Qed.

Lemma reversed_whitespace_nonempty (c : string) :
  In c (map Py.reverse Py.whitespace) -> c <> "".
Proof.
  intros H E. subst c. revert H. vm_compute. intuition discriminate.
Qed.

Lemma lstrip_no_lead (s : string) : starts_with_space (Py.lstrip s) = false.
Proof.
  unfold starts_with_space, Py.lstrip, Py.lstrip_of.
  now rewrite (proj1 (lstrip_upto_spec _ whitespace_nonempty _ s (le_n _))).
Qed.

Lemma rstrip_no_trail (s : string) : ends_with_space (Py.rstrip s) = false.
Proof.
  unfold ends_with_space, Py.rstrip, Py.lstrip_of.
  rewrite reverse_involutive.
  now rewrite (proj1 (lstrip_upto_spec _ reversed_whitespace_nonempty _ _ (le_n _))).
Qed.

(** [rstrip] gives the start of the text. *)
Lemma rstrip_prefix (s : string) : exists post, s = Py.rstrip s ++ post.
Proof.
  unfold Py.rstrip, Py.lstrip_of.
  destruct (proj2 (lstrip_upto_spec _ reversed_whitespace_nonempty _
                     (Py.reverse s) (le_n _))) as [pre Hpre].
  exists (Py.reverse pre).
  rewrite <- reverse_app, <- Hpre. symmetry. apply reverse_involutive.
Qed.

Lemma rstrip_keeps_lead (s : string) :
  starts_with_space s = false -> starts_with_space (Py.rstrip s) = false.
Proof.
  unfold starts_with_space. intros H.
  destruct (rstrip_prefix s) as [post Hpost]. rewrite Hpost in H.
  destruct (Py.drop_any Py.whitespace (Py.rstrip s ++ post)) eqn:E;
    [discriminate|].
  now rewrite (drop_any_None_app _ _ _ E).
Qed.

(** A white-space character at the start of a text is the one that is
    dropped: no character of the list is the start of another. *)
Lemma drop_any_whitespace (c s : string) :
  In c Py.whitespace -> Py.drop_any Py.whitespace (c ++ s) = Some s.
Proof.
  unfold Py.whitespace. cbn [map Py.bytes fold_right In].
  intros H.
  repeat (destruct H as [<-|H]; [reflexivity|]).
  destruct H.
Qed.

Lemma lstrip_upto_blank (s : string) :
  blank s -> forall n, (String.length s <= n)%nat ->
  Py.lstrip_upto Py.whitespace n s = "".
Proof.
  induction 1 as [|c s Hc Hs IH]; intros n Hn.
  - destruct n; reflexivity.
  - rewrite string_length_app in Hn.
    assert (L : (1 <= String.length c)%nat).
    { destruct c; [now elim (whitespace_nonempty _ Hc) | simpl; lia]. }
    destruct n as [|n]; [lia|].
    cbn [Py.lstrip_upto]. rewrite (drop_any_whitespace c s Hc).
    apply IH. lia.
Qed.

Lemma strip_blank (s : string) : blank s -> Py.strip s = "".
Proof.
  intros H. unfold Py.strip, Py.lstrip, Py.lstrip_of.
  now rewrite (lstrip_upto_blank s H _ (le_n _)).
Qed.

(** X3.  Every narrative that reaches the blob is trimmed as [str.strip]
    trims: it is not empty and has no white-space character, ASCII or not
    (a no-break space is one), at either end.  A narrative of white space
    only gives no entry. *)
Theorem build_flight_blob_trims (row : Series) :
  (forall i s,
      In (bullet i s) (flight_parts row) ->
      s <> "" /\ starts_with_space s = false /\ ends_with_space s = false)
  /\ (forall i txt,
        get row (flight_label i) = Some (Str txt) ->
        blank txt ->
        forall s, ~ In (bullet i s) (flight_parts row)).
Proof.
  split.
  - intros i s Hin. apply in_flight_parts in Hin as [_ Hn].
    apply narrative_at_Some in Hn as (txt & _ & <- & Hne).
    split; [exact Hne|]. unfold Py.strip. split.
    + apply rstrip_keeps_lead, lstrip_no_lead.
    + apply rstrip_no_trail.
  - intros i txt Hget Hsp s Hin. apply in_flight_parts in Hin as [_ Hn].
    apply narrative_at_Some in Hn as (txt' & Hget' & Hs & Hne).
    rewrite Hget in Hget'. injection Hget' as <-.
    apply strip_blank in Hsp. congruence.
Qed.

Lemma build_flight_blob_trims_witness :
  blank blank_text
  /\ forall s, ~ In (bullet 2 s) (flight_parts [("Flight 2", Str blank_text)]).
Proof.
  assert (B : blank blank_text).
  { apply (blank_more (Py.bytes [194; 160]%nat) (Py.bytes [32]%nat));
      [vm_compute; tauto|].
    apply (blank_more (Py.bytes [32]%nat) ""); [vm_compute; tauto | constructor]. }
  split; [exact B|].
  exact (proj2 (build_flight_blob_trims [("Flight 2", Str blank_text)])
           2 blank_text eq_refl B).
Defined.

(** ** The pivoted table *)

Lemma NoDup_index_names : NoDup index_names.
Proof.
  unfold index_names.
  repeat (constructor; [simpl; intuition discriminate|]). constructor.
Qed.

Lemma NoDup_map_on {A B : Type} (f : A -> B) (l : list A) :
  NoDup l ->
  (NoDup (map f l) <->
   forall x y, In x l -> In y l -> f x = f y -> x = y).
Proof.
  induction l as [|a l IH]; intros Hnd; cbn [map].
  - split; [intros _ x y [] | constructor].
  - inversion Hnd as [|? ? Ha Hl]; subst. split.
    + intros H. inversion H as [|? ? Hfa Hfl]; subst.
      pose proof (proj1 (IH Hl) Hfl) as Hinj.
      intros x y [<-|Hx] [<-|Hy] E; auto.
      * exfalso. apply Hfa. rewrite E. now apply in_map.
      * exfalso. apply Hfa. rewrite <- E. now apply in_map.
    + intros Hinj. constructor.
      * intros Hin. apply in_map_iff in Hin as (b & E & Hb).
        apply Ha. rewrite <- (Hinj b a (or_intror Hb) (or_introl eq_refl) E).
        exact Hb.
      * apply IH; [exact Hl|]. intros x y Hx Hy. apply Hinj; now right.
Qed.

Lemma NoDup_app_iff {A : Type} (l1 l2 : list A) :
  NoDup l1 -> (forall a, In a l1 -> ~ In a l2) ->
  (NoDup (l1 ++ l2) <-> NoDup l2).
Proof.
  intros H1 Hd. split.
  - induction l1 as [|a l1 IH]; [auto|].
    intros H. inversion H; subst. inversion H1; subst.
    apply IH; auto. intros b Hb. apply Hd. now right.
  - intros H2. induction l1 as [|a l1 IH]; [exact H2|].
    inversion H1 as [|? ? Ha Hl]; subst. cbn [app]. constructor.
    + intros Hin. apply in_app_or in Hin as [Hin|Hin]; [contradiction|].
      exact (Hd a (or_introl eq_refl) Hin).
    + apply IH; [exact Hl|]. intros b Hb. apply Hd. now right.
Qed.

(** X4.  Every row of the pivoted table has one cell per column.  The
    column labels are pairwise distinct exactly when no two pass numbers of
    the table have the same integer part: with the passes 1 and 1.5 the
    table has two columns "Flight 1". *)
Theorem pivot_flights_well_formed :
  (forall df,
      (forall cells, In cells (rows (pivot_flights df)) ->
         List.length cells = List.length (columns (pivot_flights df)))
      /\ (NoDup (columns (pivot_flights df)) <->
          distinct_labels
            (pv_columns (pivot_table (drop_duplicates (map resolve df))))))
  /\ columns (pivot_flights split_pass)
     = (index_names ++ ["Flight 1"; "Flight 1"])%list.
Proof.
  split; [|vm_compute; reflexivity].
  intros df. unfold pivot_flights. cbn [columns rows]. split.
  - intros cells Hc. apply in_map_iff in Hc as (k & <- & _).
    now rewrite !length_app, !length_map.
  - rewrite NoDup_app_iff.
    + unfold distinct_labels. rewrite NoDup_map_on by apply NoDup_pv_columns.
      split; intros H p q Hp Hq E; apply H; auto.
      * unfold column_label. now rewrite E.
      * now apply flight_label_inj in E.
    + apply NoDup_index_names.
    + intros a Ha Hf. apply in_map_iff in Hf as (p & <- & _).
      exact (index_name_not_flight _ Ha (int_of p) eq_refl).
Qed.

Lemma pivot_flights_well_formed_witness :
  In [Str "F1"; Str "North 40"; Str "Acme"; Str "Home"; Str "corn"; Num 40;
      Str "stand is even"; Str " tar spot in the NE corner "]
     (rows (pivot_flights two_passes))
  /\ List.length (columns (pivot_flights two_passes)) = 8%nat.
Proof.
  assert (H : In [Str "F1"; Str "North 40"; Str "Acme"; Str "Home"; Str "corn";
                  Num 40; Str "stand is even"; Str " tar spot in the NE corner "]
                 (rows (pivot_flights two_passes))) by (vm_compute; auto).
  split; [exact H|].
  rewrite <- (proj1 (proj1 pivot_flights_well_formed two_passes) _ H).
  reflexivity.
Defined.

(** *** Rows that share a pair after the de-duplication *)

Lemma drop_duplicates_unique (rows : list flight_row) (r1 r2 : flight_row) :
  In r1 (drop_duplicates rows) -> In r2 (drop_duplicates rows) ->
  subset_of r1 = subset_of r2 -> r1 = r2.
Proof.
  intros H1 H2 E.
  assert (F1 : In r1 (filter (same_subset (subset_of r1)) (drop_duplicates rows)))
    by (apply filter_In; split; [exact H1 | now apply same_subset_true]).
  assert (F2 : In r2 (filter (same_subset (subset_of r1)) (drop_duplicates rows)))
    by (apply filter_In; split; [exact H2 | now apply same_subset_true]).
  rewrite drop_duplicates_filter in F1, F2.
  destruct (find (same_subset (subset_of r1)) rows) as [x|]; [|contradiction].
  destruct F1 as [<-|[]], F2 as [<-|[]]. reflexivity.
Qed.

Lemma first_notna_in (vs : list value) :
  notna (first_notna vs) = true -> In (first_notna vs) vs.
Proof.
  induction vs as [|x vs IH]; simpl; [discriminate|].
  destruct (notna x) eqn:E; [now left | right; now apply IH].
Qed.

(** The cell of a row the de-duplication kept is the narrative of that row. *)
Lemma pv_cell_live (rows : list flight_row) (r : flight_row) (p : number) :
  In r (drop_duplicates rows) ->
  key_complete (fr_index r) = true -> fr_pass r = Some p ->
  pv_cell (pivot_table (drop_duplicates rows)) (fr_index r) p = resolved_text r.
Proof.
  intros Hr C Hp. unfold pv_cell, pivot_table. cbn [pv_agged].
  rewrite lookup_agged. apply first_notna_const.
  - intros Hnil.
    assert (H : In (resolved_text r)
                  (group_values (grouped (drop_duplicates rows)) (fr_index r, p))).
    { apply in_group_values, in_grouped. exists r. auto. }
    now rewrite Hnil in H.
  - intros v Hv.
    apply in_group_values, in_grouped in Hv as (r' & Hr' & Hk & Hp' & _ & <-).
    f_equal. apply (drop_duplicates_unique rows); auto.
    unfold subset_of. now rewrite Hk, Hp', Hp.
Qed.

Lemma pv_cell_value (rows : list flight_row) (k : field_key) (p : number) (v : value) :
  v <> NaN -> key_complete k = true ->
  (pv_cell (pivot_table (drop_duplicates rows)) k p = v <->
   exists r, In r (drop_duplicates rows) /\ fr_index r = k
             /\ fr_pass r = Some p /\ resolved_text r = v).
Proof.
  intros Hv C. split.
  - unfold pv_cell, pivot_table. cbn [pv_agged]. rewrite lookup_agged.
    intros E.
    assert (N : notna (first_notna
                         (group_values (grouped (drop_duplicates rows)) (k, p)))
                = true).
    { rewrite E. destruct v; try reflexivity. congruence. }
    apply first_notna_in in N. rewrite E in N.
    apply in_group_values, in_grouped in N as (r & Hr & Hk & Hp & _ & Hres).
    eauto.
  - intros (r & Hr & <- & Hp & <-). now apply pv_cell_live.
Qed.

Lemma key_complete_index (rows : list flight_row) (k : field_key) :
  In k (pv_index (pivot_table rows)) -> key_complete k = true.
Proof.
  intros H. apply in_pv_index in H as (r & _ & L & <-).
  now apply live_true in L.
Qed.

(** *** Reading a row of the pivoted table *)

(** The cells of a row of the pivoted table under a flight label. *)
Lemma values_at_pivot_row (k : field_key) (f : number -> value)
    (cols : list number) (n : Z) :
  values_at (combine (index_names ++ map column_label cols)%list
               (key_values k ++ map f cols)%list) (flight_label n)
  = map f (labelled n cols).
Proof.
  rewrite combine_app by reflexivity.
  rewrite values_at_app, values_at_flights. reflexivity.
Qed.

Lemma get_values_at (row : Series) (label : string) (v : value) :
  get row label = Some (Scalar v) <-> values_at row label = [v].
Proof.
  unfold get. destruct (values_at row label) as [|a [|b l]].
  - split; discriminate.
  - split; [now intros [= ->] | now intros [= ->]].
  - split; discriminate.
Qed.

Lemma map_singleton {A B : Type} (f : A -> B) (l : list A) (v : B) :
  map f l = [v] <-> exists p, l = [p] /\ f p = v.
Proof.
  destruct l as [|a [|b l]]; cbn [map].
  - split; [discriminate | intros (p & E & _); discriminate].
  - split; [intros [= <-]; eauto | intros (p & [= <-] & <-); reflexivity].
  - split; [discriminate | intros (p & E & _); discriminate].
Qed.

Lemma in_labelled (n : Z) (cols : list number) (p : number) :
  In p (labelled n cols) <-> In p cols /\ int_of p = n.
Proof. unfold labelled. rewrite filter_In, Z.eqb_eq. tauto. Qed.

(** A row of the pivoted table, read label by label. *)
Lemma iterrows_pivot_get (df : DataFrame) (row : Series) :
  In row (iterrows (pivot_flights df)) ->
  exists k,
    In k (pv_index (pivot_table (drop_duplicates (map resolve df))))
    /\ map (get row) index_names = map (fun v => Some (Scalar v)) (key_values k)
    /\ forall n,
         values_at row (flight_label n)
         = map (pv_cell (pivot_table (drop_duplicates (map resolve df))) k)
             (labelled n
                (pv_columns (pivot_table (drop_duplicates (map resolve df))))).
Proof.
  unfold iterrows, pivot_flights. cbn [columns rows].
  rewrite map_map, in_map_iff. intros (k & <- & Hk).
  exists k. split; [exact Hk|]. split.
  - transitivity (map (get (combine index_names (key_values k))) index_names);
      [|reflexivity].
    apply map_ext_in. intros label Hl. now apply get_index_name.
  - intros n. apply values_at_pivot_row.
Qed.

(** A present cell of the aggregated table is the narrative of the row the
    de-duplication kept for its field and pass; that pass is a column. *)
Lemma pv_cell_kept (rows : list flight_row) (k : field_key) (p : number)
    (v : value) :
  v <> NaN -> key_complete k = true ->
  (In p (pv_columns (pivot_table (drop_duplicates rows)))
   /\ pv_cell (pivot_table (drop_duplicates rows)) k p = v <->
   exists r, In r (drop_duplicates rows) /\ fr_index r = k
             /\ fr_pass r = Some p /\ resolved_text r = v).
Proof.
  intros Hv C. rewrite <- (pv_cell_value rows k p v Hv C). split; [tauto|].
  intros E. split; [|exact E].
  apply (pv_cell_value rows k p v Hv C) in E as (r & Hr & Hrk & Hrp & Hres).
  apply in_pv_columns. exists r. repeat split; auto.
  apply live_true. rewrite Hrk, Hres. repeat split; eauto.
  destruct v; try reflexivity. congruence.
Qed.

(** X5.  Reading the pivoted table back.  A row carries the six attributes
    of its field.  A present value [v] is among its cells under "Flight n"
    exactly when the row that the de-duplication kept for that field and
    for a pass number [p] with integer part [n] has [v] as its resolved
    narrative; and [row.get("Flight n")] gives [v] itself exactly when, in
    addition, [p] is the only pass number of the table with integer part
    [n] (otherwise the lookup gives a sub-series, not a value). *)
Theorem pivot_row_cells (df : DataFrame) (row : Series) :
  In row (iterrows (pivot_flights df)) ->
  exists k,
    map (get row) index_names = map (fun v => Some (Scalar v)) (key_values k)
    /\ (forall n v,
          v <> NaN ->
          (In v (values_at row (flight_label n)) <->
           exists p r, int_of p = n
                       /\ In r (drop_duplicates (map resolve df))
                       /\ fr_index r = k /\ fr_pass r = Some p
                       /\ resolved_text r = v))
    /\ (forall n v,
          v <> NaN ->
          (get row (flight_label n) = Some v <->
           exists p r,
             labelled n
               (pv_columns (pivot_table (drop_duplicates (map resolve df))))
             = [p]
             /\ In r (drop_duplicates (map resolve df))
             /\ fr_index r = k /\ fr_pass r = Some p
             /\ resolved_text r = v)).
Proof.
  intros Hrow.
  destruct (iterrows_pivot_get df row Hrow) as (k & Hk & Hkeys & Hget).
  exists k. split; [exact Hkeys|].
  pose proof (key_complete_index _ _ Hk) as C.
  set (cols := pv_columns (pivot_table (drop_duplicates (map resolve df)))) in *.
  split; intros n v Hv.
  - rewrite Hget, in_map_iff. split.
    + intros (p & E & Hp). apply in_labelled in Hp as [Hp Hn].
      destruct (proj1 (pv_cell_kept (map resolve df) k p v Hv C) (conj Hp E))
        as (r & Hr & Hrk & Hrp & Hres).
      exists p, r. auto.
    + intros (p & r & Hn & Hr & Hrk & Hrp & Hres).
      destruct (proj2 (pv_cell_kept (map resolve df) k p v Hv C)) as [Hp E]; [eauto|].
      exists p. split; [exact E|]. apply in_labelled. auto.
  - rewrite get_values_at, Hget, map_singleton. split.
    + intros (p & El & E).
      assert (Hp : In p cols).
      { apply (in_labelled n cols p). rewrite El. now left. }
      destruct (proj1 (pv_cell_kept (map resolve df) k p v Hv C) (conj Hp E))
        as (r & Hr & Hrk & Hrp & Hres).
      exists p, r. auto.
    + intros (p & r & El & Hr & Hrk & Hrp & Hres).
      destruct (proj2 (pv_cell_kept (map resolve df) k p v Hv C)) as [Hp E]; [eauto|].
      eauto.
Qed.

Lemma pivot_row_cells_witness :
  In north_two_passes (iterrows (pivot_flights two_passes))
  /\ get north_two_passes (flight_label 3)
     = Some (Str " tar spot in the NE corner ").
Proof.
  assert (H : In north_two_passes (iterrows (pivot_flights two_passes)))
    by (vm_compute; auto).
  split; [exact H|].
  destruct (pivot_row_cells two_passes north_two_passes H)
    as (k & Hkeys & _ & Hcell).
  apply Hcell; [discriminate|].
  exists (whole 3), (resolve (nth 0 two_passes empty_primary)).
  assert (E : north = k).
  { destruct k. cbn in Hkeys. injection Hkeys as <- <- <- <- <- <-. reflexivity. }
  repeat split.
  - vm_compute. auto.
  - exact E.
Defined.

(** X6.  The pivoted table has no empty row and no empty column: every row
    holds a present narrative under some flight column, and every flight
    column holds a present narrative in some row. *)
Theorem pivot_no_empty_row_or_column (df : DataFrame) :
  (forall k,
      In k (pv_index (pivot_table (drop_duplicates (map resolve df)))) ->
      exists p,
        In p (pv_columns (pivot_table (drop_duplicates (map resolve df))))
        /\ pv_cell (pivot_table (drop_duplicates (map resolve df))) k p <> NaN)
  /\ (forall p,
        In p (pv_columns (pivot_table (drop_duplicates (map resolve df)))) ->
        exists k,
          In k (pv_index (pivot_table (drop_duplicates (map resolve df))))
          /\ pv_cell (pivot_table (drop_duplicates (map resolve df))) k p <> NaN).
Proof.
  assert (L : forall r p,
             In r (drop_duplicates (map resolve df)) -> live r = true ->
             fr_pass r = Some p ->
             pv_cell (pivot_table (drop_duplicates (map resolve df)))
               (fr_index r) p <> NaN).
  { intros r p Hr Hl Hp. apply live_true in Hl as (C & _ & N).
    rewrite pv_cell_live by auto. intros E. rewrite E in N. discriminate. }
  split.
  - intros k Hk. apply in_pv_index in Hk as (r & Hr & Hl & <-).
    destruct (proj1 (live_true r) Hl) as (_ & [p Hp] & _).
    exists p. split; [|now apply L].
    apply in_pv_columns. eauto.
  - intros p Hp. apply in_pv_columns in Hp as (r & Hr & Hl & Hp).
    exists (fr_index r). split; [|now apply L].
    apply in_pv_index. eauto.
Qed.

Lemma pivot_no_empty_row_or_column_witness :
  In north (pv_index (pivot_table (drop_duplicates (map resolve two_passes))))
  /\ exists p,
       In p (pv_columns (pivot_table (drop_duplicates (map resolve two_passes))))
       /\ pv_cell (pivot_table (drop_duplicates (map resolve two_passes))) north p
          <> NaN.
Proof.
  assert (H : In north
                (pv_index (pivot_table (drop_duplicates (map resolve two_passes)))))
    by (vm_compute; auto).
  split; [exact H|].
  exact (proj1 (pivot_no_empty_row_or_column two_passes) north H).
Defined.

(** X7.  The pivot and the blob builder together.  The blob of a field's
    row is its entries joined by line feeds, or the placeholder, and it has
    the entry "- Flight i: s" exactly when [i] is one of 1..6, exactly one
    pass number [p] of the table has the integer part [i], and the row kept
    for that field and pass [p] has a resolved narrative that is a text
    which strips to the non-empty [s].  A slot whose label two pass numbers
    share gets no entry. *)
Theorem pivot_row_blob (df : DataFrame) (row : Series) :
  In row (iterrows (pivot_flights df)) ->
  exists k,
    map (get row) index_names = map (fun v => Some (Scalar v)) (key_values k)
    /\ build_flight_blob row
       = match flight_parts row with
         | [] => "- No flight narratives available."
         | parts => spec_join parts
         end
    /\ (forall i s,
          In ("- Flight " ++ Py.str_of_int i ++ ": " ++ s) (flight_parts row) <->
          1 <= i <= 6
          /\ exists p r txt,
               labelled i
                 (pv_columns (pivot_table (drop_duplicates (map resolve df))))
               = [p]
               /\ In r (drop_duplicates (map resolve df))
               /\ fr_index r = k /\ fr_pass r = Some p
               /\ resolved_text r = Str txt
               /\ Py.strip txt = s /\ s <> "")
    /\ (forall i p q s,
          In p (pv_columns (pivot_table (drop_duplicates (map resolve df)))) ->
          In q (pv_columns (pivot_table (drop_duplicates (map resolve df)))) ->
          p <> q -> int_of p = i -> int_of q = i ->
          ~ In ("- Flight " ++ Py.str_of_int i ++ ": " ++ s) (flight_parts row)).
Proof.
  intros Hrow.
  destruct (iterrows_pivot_get df row Hrow) as (k & Hk & Hkeys & Hget).
  exists k. split; [exact Hkeys|]. split; [apply blob_of_parts|].
  pose proof (key_complete_index _ _ Hk) as C.
  set (cols := pv_columns (pivot_table (drop_duplicates (map resolve df)))) in *.
  assert (Cell : forall i txt,
             get row (flight_label i) = Some (Str txt) <->
             exists p r, labelled i cols = [p]
                         /\ In r (drop_duplicates (map resolve df))
                         /\ fr_index r = k /\ fr_pass r = Some p
                         /\ resolved_text r = Str txt).
  { intros i txt. rewrite get_values_at, Hget, map_singleton.
    assert (Hv : Str txt <> NaN) by discriminate. split.
    - intros (p & El & E).
      assert (Hp : In p cols).
      { apply (in_labelled i cols p). rewrite El. now left. }
      destruct (proj1 (pv_cell_kept (map resolve df) k p _ Hv C) (conj Hp E))
        as (r & Hr & Hrk & Hrp & Hres).
      exists p, r. auto.
    - intros (p & r & El & Hr & Hrk & Hrp & Hres).
      destruct (proj2 (pv_cell_kept (map resolve df) k p _ Hv C)) as [Hp E]; [eauto|].
      eauto. }
  assert (Line : forall i s,
             In ("- Flight " ++ Py.str_of_int i ++ ": " ++ s) (flight_parts row) <->
             1 <= i <= 6
             /\ exists p r txt,
                  labelled i cols = [p]
                  /\ In r (drop_duplicates (map resolve df))
                  /\ fr_index r = k /\ fr_pass r = Some p
                  /\ resolved_text r = Str txt
                  /\ Py.strip txt = s /\ s <> "").
  { intros i s. change ("- Flight " ++ Py.str_of_int i ++ ": " ++ s) with (bullet i s).
    rewrite in_flight_parts, narrative_at_Some. split.
    - intros (Hi & txt & Hg & Hs & Hne). split; [exact Hi|].
      apply Cell in Hg as (p & r & El & Hr & Hrk & Hrp & Hres).
      exists p, r, txt. repeat split; auto.
    - intros (Hi & p & r & txt & El & Hr & Hrk & Hrp & Hres & Hs & Hne).
      split; [exact Hi|].
      exists txt. split; [|auto]. apply Cell. exists p, r. auto. }
  split; [exact Line|].
  intros i p q s Hp Hq Hpq Hpi Hqi Hin.
  apply Line in Hin as (_ & p' & _ & _ & El & _).
  assert (Ip : In p (labelled i cols)) by (apply in_labelled; auto).
  assert (Iq : In q (labelled i cols)) by (apply in_labelled; auto).
  rewrite El in Ip, Iq. destruct Ip as [<-|[]], Iq as [<-|[]]. now apply Hpq.
Qed.

Lemma pivot_row_blob_witness :
  In north_two_passes (iterrows (pivot_flights two_passes))
  /\ In "- Flight 3: tar spot in the NE corner" (flight_parts north_two_passes).
Proof.
  assert (H : In north_two_passes (iterrows (pivot_flights two_passes)))
    by (vm_compute; auto).
  split; [exact H|].
  destruct (pivot_row_blob two_passes north_two_passes H)
    as (k & Hkeys & _ & Hblob & _).
  apply (Hblob 3 "tar spot in the NE corner"). split; [lia|].
  exists (whole 3), (resolve (nth 0 two_passes empty_primary)),
    " tar spot in the NE corner ".
  assert (E : north = k).
  { destruct k. cbn in Hkeys. injection Hkeys as <- <- <- <- <- <-. reflexivity. }
  repeat split; try discriminate.
  - vm_compute. auto.
  - exact E.
Defined.

Lemma no_elements {A : Type} (l : list A) : (forall x, ~ In x l) -> l = [].
Proof.
  destruct l as [|a l]; [reflexivity|]. intros H. exfalso. apply (H a). now left.
Qed.

(** X8.  When no row is live (the table is empty, or every row misses a key
    or its narrative), the pivoted table has the six attribute columns and no
    row, and the run asks the service nothing and sleeps nothing: what is
    written is the header with [field_summary] added. *)
Theorem pivot_without_live_rows (df : DataFrame) :
  (forall r, In r (drop_duplicates (map resolve df)) -> live r = false) ->
  pivot_flights df = {| columns := index_names; rows := [] |}
  /\ forall client args w,
       main_table client args df w
       = (Ok {| columns := (index_names ++ ["field_summary"])%list; rows := [] |},
          w).
Proof.
  intros Hdead.
  assert (Hi : pv_index (pivot_table (drop_duplicates (map resolve df))) = []).
  { apply no_elements. intros k Hk. apply in_pv_index in Hk as (r & Hr & L & _).
    rewrite (Hdead r Hr) in L. discriminate. }
  assert (Hc : pv_columns (pivot_table (drop_duplicates (map resolve df))) = []).
  { apply no_elements. intros p Hp. apply in_pv_columns in Hp as (r & Hr & L & _).
    rewrite (Hdead r Hr) in L. discriminate. }
  assert (E : pivot_flights df = {| columns := index_names; rows := [] |}).
  { unfold pivot_flights. cbv zeta. now rewrite Hi, Hc. }
  split; [exact E|].
  intros client args w. unfold main_table. now rewrite E.
Qed.

Lemma pivot_without_live_rows_witness :
  pivot_flights [nth 1 silent_field empty_primary]
  = {| columns := index_names; rows := [] |}.
Proof.
  apply (pivot_without_live_rows [nth 1 silent_field empty_primary]).
  intros r [<-|[]]. reflexivity.
Defined.

(** ** De-duplication, further *)

Lemma drop_duplicates_from_fresh (rows : list flight_row) :
  forall seen r,
    In r (drop_duplicates_from seen rows) -> ~ In (subset_of r) seen.
Proof.
  induction rows as [|x rest IH]; intros seen r; simpl; [tauto|].
  destruct (in_dec subset_eq_dec (subset_of x) seen) as [Hx|Hx].
  - apply IH.
  - intros [<-|H]; [exact Hx|].
    intros Hs. apply (IH _ _ H). now right.
Qed.

Lemma drop_duplicates_from_NoDup (rows : list flight_row) :
  forall seen, NoDup (map subset_of (drop_duplicates_from seen rows)).
Proof.
  induction rows as [|x rest IH]; intros seen; simpl; [constructor|].
  destruct (in_dec subset_eq_dec (subset_of x) seen) as [Hx|Hx]; [apply IH|].
  simpl. constructor; [|apply IH].
  intros Hin. apply in_map_iff in Hin as (r & E & Hr).
  apply drop_duplicates_from_fresh in Hr. apply Hr. rewrite E. now left.
Qed.

Lemma drop_duplicates_from_fixed (rows : list flight_row) :
  forall seen,
    NoDup (map subset_of rows) ->
    (forall r, In r rows -> ~ In (subset_of r) seen) ->
    drop_duplicates_from seen rows = rows.
Proof.
  induction rows as [|x rest IH]; intros seen Hnd Hfresh; simpl; [reflexivity|].
  simpl in Hnd. inversion Hnd as [|? ? Hx Hrest]; subst.
  destruct (in_dec subset_eq_dec (subset_of x) seen) as [H|_].
  - exfalso. apply (Hfresh x); [now left | exact H].
  - f_equal. apply IH; [exact Hrest|].
    intros r Hr [E|Hs].
    + apply Hx. rewrite E. now apply in_map.
    + apply (Hfresh r); [now right | exact Hs].
Qed.

(** X9.  After the de-duplication no two rows share a (field_id,
    pass_number) pair; a table whose pairs are already distinct comes out
    unchanged, in the same order; so de-duplicating twice changes nothing. *)
Theorem drop_duplicates_distinct (rows : list flight_row) :
  NoDup (map subset_of (drop_duplicates rows))
  /\ (NoDup (map subset_of rows) -> drop_duplicates rows = rows)
  /\ drop_duplicates (drop_duplicates rows) = drop_duplicates rows.
Proof.
  assert (N : NoDup (map subset_of (drop_duplicates rows)))
    by apply drop_duplicates_from_NoDup.
  assert (F : forall l, NoDup (map subset_of l) -> drop_duplicates l = l).
  { intros l Hl. apply drop_duplicates_from_fixed; [exact Hl|]. intros r _ []. }
  split; [exact N|]. split; [apply F | apply F, N].
Qed.

Lemma drop_duplicates_distinct_witness :
  NoDup (map subset_of (map resolve two_passes))
  /\ drop_duplicates (map resolve two_passes) = map resolve two_passes.
Proof.
  assert (H : NoDup (map subset_of (map resolve two_passes))).
  { simpl. repeat (constructor; [simpl; intuition discriminate|]). constructor. }
  split; [exact H|].
  exact (proj1 (proj2 (drop_duplicates_distinct (map resolve two_passes))) H).
Defined.

(** ** The summariser, further *)

(** X10.  A row without one of the columns [field_name], [field_id],
    [client_name] makes the call raise [KeyError] for the first of them that
    is missing, in this order, before any request is made or any time is
    slept. *)
Theorem summarize_row_missing_column (client : Client) (model : string)
    (row : Series) (retries : Z) (backoff : Q) (w : world) :
  (get row "field_name" = None ->
     summarize_row client model row retries backoff w
     = (Raised (KeyError "field_name"), w))
  /\ (forall a, get row "field_name" = Some a -> get row "field_id" = None ->
        summarize_row client model row retries backoff w
        = (Raised (KeyError "field_id"), w))
  /\ (forall a b, get row "field_name" = Some a -> get row "field_id" = Some b ->
        get row "client_name" = None ->
        summarize_row client model row retries backoff w
        = (Raised (KeyError "client_name"), w)).
Proof.
  unfold summarize_row, getitem, bind. repeat split.
  - intros ->. reflexivity.
  - intros a -> ->. reflexivity.
  - intros a b -> -> ->. reflexivity.
Qed.

Lemma summarize_row_missing_column_witness :
  summarize_row always_up "gpt-4.1" clientless_row 3 2 new_world
  = (Raised (KeyError "client_name"), new_world).
Proof.
  apply (proj2 (proj2 (summarize_row_missing_column always_up "gpt-4.1"
                         clientless_row 3 2%Q new_world))
           (Str "North 40") (Str "F1"));
    reflexivity.
Defined.

(** The loop when the back-off delay after a failed attempt is one that
    [time.sleep] refuses. *)
Lemma retry_loop_refused (client : Client) (model input : string)
    (retries : Z) (backoff : pyfloat) (n : nat) :
  forall (a : Z) (w : world) (naps : list Q),
    a + Z.of_nat n + 1 < retries ->
    (forall j, (j <= n)%nat ->
               exists e, outcome client model input (calls w + j) = Raised e) ->
    map (nap backoff) (Py.range a (a + Z.of_nat n)) = map Some naps ->
    nap backoff (a + Z.of_nat n) = None ->
    exists e,
      retry_loop client model input retries backoff (Py.range a retries) w
      = (Raised e,
         {| calls := calls w + S n; slept := (slept w ++ naps)%list |}).
Proof.
  induction n as [|n IH]; intros a w naps Ha Hfail Hnaps Hno.
  - destruct (Hfail 0%nat (le_n _)) as [e0 He0].
    rewrite Nat.add_0_r in He0.
    rewrite range_cons by lia. rewrite (range_nil a) in Hnaps by lia.
    destruct naps; [|discriminate].
    replace (a + Z.of_nat 0) with a in Hno by lia.
    cbn [retry_loop]. unfold try_except. rewrite request_eq, He0.
    replace (a =? retries - 1) with false by (symmetry; apply Z.eqb_neq; lia).
    destruct (pause_refused backoff a
                (retry_loop client model input retries backoff
                   (Py.range (a + 1) retries))
                {| calls := S (calls w); slept := slept w |} Hno) as [e He].
    exists e. rewrite He. rewrite app_nil_r. do 2 f_equal. lia.
  - destruct (Hfail 0%nat (Nat.le_0_l _)) as [e0 He0].
    rewrite Nat.add_0_r in He0.
    destruct (map_nap_cons backoff a (a + Z.of_nat (S n)) naps)
      as (q & rest & -> & Hq & Hrest); [lia | exact Hnaps |].
    set (w1 := {| calls := S (calls w); slept := (slept w ++ [q])%list |}).
    destruct (IH (a + 1) w1 rest) as [e Hloop].
    + lia.
    + intros j Hj. destruct (Hfail (S j)) as [e' He']; [lia|].
      exists e'. unfold w1. cbn [calls].
      now replace (S (calls w) + j)%nat with (calls w + S j)%nat by lia.
    + now replace (a + 1 + Z.of_nat n) with (a + Z.of_nat (S n)) by lia.
    + now replace (a + 1 + Z.of_nat n) with (a + Z.of_nat (S n)) by lia.
    + exists e. rewrite range_cons by lia.
      cbn [retry_loop]. unfold try_except. rewrite request_eq, He0.
      replace (a =? retries - 1) with false by (symmetry; apply Z.eqb_neq; lia).
      rewrite (pause _ _ _ _ _ Hq).
      cbn [calls slept]. fold w1. rewrite Hloop.
      unfold w1. cbn [calls slept]. rewrite <- app_assoc.
      f_equal; f_equal; try lia; auto.
Qed.

(** X11.  For any number of attempts and any back-off: when the attempts
    0 .. j-1 fail and the attempt [j < retries] answers, and [time.sleep]
    takes the delays [backoff * 1], ..., [backoff * j] (float products, each
    a number that is not negative and not too large), the call returns the
    answer after [j + 1] requests, having slept exactly these delays in this
    order. *)
Theorem summarize_row_first_answer (client : Client) (model : string)
    (row : Series) (fname fid cname : value) (retries : Z) (backoff : pyfloat)
    (w : world) (j : nat) (text : string) (naps : list Q) :
  get row "field_name" = Some fname ->
  get row "field_id" = Some fid ->
  get row "client_name" = Some cname ->
  Z.of_nat j < retries ->
  (forall i, (i < j)%nat ->
     exists e,
       outcome client model (request_input fname fid cname (build_flight_blob row))
         (calls w + i) = Raised e) ->
  outcome client model (request_input fname fid cname (build_flight_blob row))
    (calls w + j) = Ok text ->
  map (nap backoff) (Py.range 0 (Z.of_nat j)) = map Some naps ->
  summarize_row client model row retries backoff w
  = (Ok (Some text),
     {| calls := calls w + S j; slept := (slept w ++ naps)%list |}).
Proof.
  intros H1 H2 H3 Hj Hfail Hok Hnaps.
  rewrite (summarize_row_unfold _ _ _ _ _ _ _ _ _ H1 H2 H3).
  apply (retry_loop_succeeds client model _ retries backoff text j 0 w naps);
    auto; lia.
Qed.

Lemma summarize_row_first_answer_witness :
  summarize_row fourth_time_lucky "gpt-4.1" north_row 5 tenth new_world
  = (Ok (Some "Even stand early."),
     {| calls := 4;
        slept := [3602879701896397 # 36028797018963968;
                  3602879701896397 # 18014398509481984;
                  1351079888211149 # 4503599627370496]%Q |}).
Proof.
  apply (summarize_row_first_answer fourth_time_lucky "gpt-4.1" north_row
           (Str "North 40") (Str "F1") (Str "Acme") 5 tenth new_world
           3%nat "Even stand early.");
    try reflexivity; try lia.
  intros i Hi. exists (ServiceError "connection reset").
  destruct i as [|[|[|i]]]; [reflexivity | reflexivity | reflexivity | lia].
Defined.

(** X12.  Whatever the service does, when [time.sleep] takes the back-off
    delays [backoff * 1], ..., [backoff * (retries - 1)], a call on a
    complete row returns and does not raise; it makes at least one and at
    most [retries] requests when [retries >= 1], and returns a text; it
    makes none when [retries <= 0], and returns [None]; having made [n]
    requests it has slept the first [n - 1] of these delays, in order. *)
Theorem summarize_row_cost (client : Client) (model : string) (row : Series)
    (fname fid cname : value) (retries : Z) (backoff : pyfloat) (w : world)
    (naps : list Q) :
  get row "field_name" = Some fname ->
  get row "field_id" = Some fid ->
  get row "client_name" = Some cname ->
  map (nap backoff) (Py.range 0 (retries - 1)) = map Some naps ->
  exists res w' n,
    summarize_row client model row retries backoff w = (Ok res, w')
    /\ calls w' = (calls w + n)%nat
    /\ Z.of_nat n <= Z.max 0 retries
    /\ slept w' = (slept w ++ firstn (n - 1) naps)%list
    /\ (1 <= retries -> (1 <= n)%nat /\ exists s, res = Some s)
    /\ (retries <= 0 -> n = 0%nat /\ res = None).
Proof.
  intros H1 H2 H3 Hnaps.
  rewrite (summarize_row_unfold _ _ _ _ _ _ _ _ _ H1 H2 H3).
  destruct (Z.le_gt_cases retries 0) as [Hr|Hr].
  - exists None, w, 0%nat. rewrite range_nil by lia.
    cbn [Nat.sub firstn]. rewrite app_nil_r. repeat split; try lia; auto.
  - destruct (retry_loop_cost client model
                (request_input fname fid cname (build_flight_blob row))
                retries backoff (Z.to_nat (retries - 1)) 0 w naps)
      as (s & w' & n & Hloop & Hn & Hcalls & Hslept); [lia | exact Hnaps |].
    exists (Some s), w', n. split; [exact Hloop|].
    split; [exact Hcalls|]. split; [lia|]. split; [exact Hslept|].
    split; [intros _; split; [lia | eauto] | lia].
Qed.

Lemma summarize_row_cost_witness :
  exists res w' n,
    summarize_row always_down "gpt-4.1" north_row 2 3 new_world = (Ok res, w')
    /\ calls w' = (calls new_world + n)%nat
    /\ slept w' = firstn (n - 1) [3%Q]
    /\ (1 <= n)%nat.
Proof.
  assert (Hretries : 1 <= 2) by lia.
  destruct (summarize_row_cost always_down "gpt-4.1" north_row
              (Str "North 40") (Str "F1") (Str "Acme") 2 3%Q new_world [3%Q]
              eq_refl eq_refl eq_refl eq_refl)
    as (res & w' & n & Hs & Hc & _ & Hz & Hpos & _).
  exists res, w', n. repeat split; auto. apply (Hpos Hretries).
Defined.

(** X18.  A back-off delay that [time.sleep] refuses (a negative product,
    one of 9223372036.854778 seconds or more, an infinity, not-a-number)
    ends the call with the exception of [time.sleep]: when the attempts
    0 .. j fail, attempt [j] is not the last and the delays before it were
    taken, the call raises after [j + 1] requests and no text is returned. *)
Theorem summarize_row_refused_backoff (client : Client) (model : string)
    (row : Series) (fname fid cname : value) (retries : Z) (backoff : pyfloat)
    (w : world) (j : nat) (naps : list Q) :
  get row "field_name" = Some fname ->
  get row "field_id" = Some fid ->
  get row "client_name" = Some cname ->
  Z.of_nat j + 1 < retries ->
  (forall i, (i <= j)%nat ->
     exists e,
       outcome client model (request_input fname fid cname (build_flight_blob row))
         (calls w + i) = Raised e) ->
  map (nap backoff) (Py.range 0 (Z.of_nat j)) = map Some naps ->
  (forall d, backoff_product backoff (Z.of_nat j) = Some d -> refused d = true) ->
  exists e,
    summarize_row client model row retries backoff w
    = (Raised e, {| calls := calls w + S j; slept := (slept w ++ naps)%list |}).
Proof.
  intros H1 H2 H3 Hj Hfail Hnaps Hno.
  apply refused_product in Hno.
  rewrite (summarize_row_unfold _ _ _ _ _ _ _ _ _ H1 H2 H3).
  apply (retry_loop_refused client model _ retries backoff j 0 w naps);
    auto; lia.
Qed.

Lemma summarize_row_refused_backoff_witness :
  exists e,
    summarize_row always_down "gpt-4.1" north_row 3 NotANumber new_world
    = (Raised e, {| calls := 1; slept := [] |}).
Proof.
  assert (Hj : Z.of_nat 0 + 1 < 3) by lia.
  apply (summarize_row_refused_backoff always_down "gpt-4.1" north_row
           (Str "North 40") (Str "F1") (Str "Acme") 3 NotANumber new_world
           0%nat [] eq_refl eq_refl eq_refl Hj);
    try reflexivity.
  - intros i Hi. exists (ServiceError "connection reset"). reflexivity.
  - intros d [= <-]. reflexivity.
Defined.

(** X13.  The answer is read from the first item of type "message": items of
    other types before it are skipped and whatever follows it is never
    looked at, even when its own content is empty ([IndexError]); a response
    without a message item is a failure ([StopIteration]). *)
Theorem message_text_first_message :
  (forall (before after : response) (msg : output_item),
      (forall o, In o before -> is_message o = false) ->
      is_message msg = true ->
      message_text (before ++ msg :: after)%list
      = match item_content msg with
        | [] => Raised IndexError
        | text :: _ => Ok (Py.strip text)
        end)
  /\ (forall resp : response,
        (forall o, In o resp -> is_message o = false) ->
        message_text resp = Raised StopIteration).
Proof.
  split.
  - intros before after msg Hb Hm. unfold message_text.
    assert (F : find is_message (before ++ msg :: after)%list = Some msg).
    { induction before as [|o before IH]; simpl.
      - now rewrite Hm.
      - rewrite (Hb o (or_introl eq_refl)). apply IH.
        intros o' Ho'. apply Hb. now right. }
    now rewrite F.
  - intros resp Hno. unfold message_text.
    assert (F : find is_message resp = None).
    { induction resp as [|o resp IH]; simpl; [reflexivity|].
      rewrite (Hno o (or_introl eq_refl)). apply IH.
      intros o' Ho'. apply Hno. now right. }
    now rewrite F.
Qed.

Lemma message_text_first_message_witness :
  message_text
    ([ {| item_type := Some "reasoning"; item_content := ["thinking"] |};
       {| item_type := None; item_content := [] |} ]
     ++ {| item_type := Some "message"; item_content := [] |}
     :: [ {| item_type := Some "message"; item_content := ["late"] |} ])%list
  = Raised IndexError.
Proof.
  apply (proj1 message_text_first_message
           [ {| item_type := Some "reasoning"; item_content := ["thinking"] |};
             {| item_type := None; item_content := [] |} ]
           [ {| item_type := Some "message"; item_content := ["late"] |} ]
           {| item_type := Some "message"; item_content := [] |}).
  - intros o [<-|[<-|[]]]; reflexivity.
  - reflexivity.
Defined.

(** ** The whole run, further *)

Lemma removelast_with_summaries (rs : list (list value)) :
  forall l : list (option string),
    List.length l = List.length rs ->
    map (@removelast value)
      (map (fun x => (fst x ++ [summary_cell (snd x)])%list) (combine rs l))
    = rs.
Proof.
  induction rs as [|r rs IH]; intros [|s l] Hlen; simpl in *;
    try reflexivity; try discriminate.
  rewrite removelast_last, IH by lia. reflexivity.
Qed.

(** X14.  Whatever the service does, when [time.sleep] takes the delay
    between fields the run ends with a table that is the pivoted table, row
    for row and in the same order, with one more cell at the end of every
    row: a [field_summary] that is a text, never the missing-value marker. *)
Theorem main_table_summaries (client : Client) (args : arguments)
    (df : DataFrame) (w : world) :
  sleepable (delay args) = true ->
  exists table w',
    main_table client args df w = (Ok table, w')
    /\ map (@removelast value) (rows table) = rows (pivot_flights df)
    /\ forall cells, In cells (rows table) ->
         exists wide s,
           In wide (rows (pivot_flights df))
           /\ cells = (wide ++ [Str s])%list.
Proof.
  intros Hdelay.
  destruct (main_table_cost client args df w Hdelay)
    as (texts & w' & naps & Hm & Hlen & _).
  exists (with_summaries (pivot_flights df) (map Some texts)), w'.
  split; [exact Hm|]. split.
  { unfold with_summaries. cbn [rows]. apply removelast_with_summaries.
    now rewrite length_map. }
  intros cells Hc. unfold with_summaries in Hc. cbn [rows] in Hc.
  apply in_map_iff in Hc as ([wide txt] & <- & Hin).
  pose proof (in_combine_l _ _ _ _ Hin) as Hl.
  apply in_combine_r, in_map_iff in Hin as (s & <- & _).
  exists wide, s. split; [exact Hl | reflexivity].
Qed.

Lemma main_table_summaries_witness :
  exists table w',
    main_table always_down sample_args two_passes new_world = (Ok table, w')
    /\ exists wide s,
         In wide (rows (pivot_flights two_passes))
         /\ nth 0 (rows table) [] = (wide ++ [Str s])%list.
Proof.
  destruct (main_table_summaries always_down sample_args two_passes new_world
              eq_refl)
    as (table & w' & Hm & _ & Hrows).
  exists table, w'. split; [exact Hm|].
  apply Hrows.
  assert (E : fst (main_table always_down sample_args two_passes new_world)
              = Ok table) by now rewrite Hm.
  vm_compute in E. injection E as <-. vm_compute. auto.
Defined.

(** The delays of the default back-off, written out. *)
Lemma default_naps_values :
  map (nap default_backoff) (Py.range 0 (default_retries - 1))
  = map Some [2; 4]%Q.
Proof. vm_compute. reflexivity. Qed.

(** The loop over the fields, field by field, whatever the service does. *)
Lemma summarize_all_fields (client : Client) (args : arguments) (dl : Q)
    (todo : list Series) :
  delay args = Finite dl -> sleepable (Finite dl) = true ->
  (forall row, In row todo ->
     exists a b c : item,
       get row "field_name" = Some a /\ get row "field_id" = Some b
       /\ get row "client_name" = Some c) ->
  forall w, exists log w',
    summarize_all client args todo w
    = (Ok (map (fun e => Some (fst e)) log), w')
    /\ field_by_field client args dl todo w log w'
    /\ Forall (fun e => (1 <= snd e <= 3)%nat) log.
Proof.
  intros Hdl Hdelay.
  induction todo as [|row later IH]; intros Hcols w.
  - exists [], w. repeat split; constructor.
  - destruct (Hcols row (or_introl eq_refl)) as (a & b & c & Ha & Hb & Hc).
    destruct (retry_loop_cost client (model args)
                (request_input a b c (build_flight_blob row))
                default_retries default_backoff 2 0 w _ eq_refl
                default_naps_values)
      as (s & u & n & Hloop & Hn & Hcalls & Hslept).
    destruct (IH (fun r Hr => Hcols r (or_intror Hr))
                {| calls := calls u; slept := (slept u ++ [dl])%list |})
      as (log & w' & Hall & Hlog & Hbounds).
    assert (Hrow : summarize_row client (model args) row default_retries
                     default_backoff w = (Ok (Some s), u)).
    { now rewrite (summarize_row_unfold _ _ _ _ _ _ _ _ _ Ha Hb Hc). }
    exists ((s, n) :: log), w'. split; [|split].
    + cbn [summarize_all]. unfold bind at 1. rewrite Hrow.
      unfold bind at 1. rewrite Hdl, (sleep_sleepable _ _ Hdelay).
      unfold bind at 1. rewrite Hall. reflexivity.
    + exact (fields_next client args dl row later w u w' s n log
               Hrow Hcalls Hslept Hlog).
    + constructor; [exact Hn | exact Hbounds].
Qed.

Lemma field_by_field_length (client : Client) (args : arguments) (dl : Q)
    (todo : list Series) (w w' : world) (log : list (string * nat)) :
  field_by_field client args dl todo w log w' ->
  List.length log = List.length todo.
Proof. induction 1; simpl; congruence. Qed.

Lemma field_by_field_cost (client : Client) (args : arguments) (dl : Q)
    (todo : list Series) (w w' : world) (log : list (string * nat)) :
  field_by_field client args dl todo w log w' ->
  calls w' = (calls w + list_sum (map snd log))%nat
  /\ slept w'
     = (slept w
        ++ flat_map (fun e => firstn (snd e - 1) [2; 4]%Q ++ [dl]) log)%list.
Proof.
  induction 1 as [w0|row later w0 u w1 s n log Hrow Hc Hs Hlog IH].
  - cbn [map list_sum flat_map fold_right]. rewrite app_nil_r.
    split; [lia | reflexivity].
  - cbn [calls slept] in IH. destruct IH as [IHc IHs].
    unfold list_sum in *. cbn [map snd flat_map fold_right]. split.
    + rewrite IHc, Hc. lia.
    + rewrite IHs, Hs, <- !app_assoc. reflexivity.
Qed.

(** X15.  Whatever the service does, when [time.sleep] takes the delay
    between fields, the run goes through the fields of the pivoted table in
    order and, for each field, makes at least one and at most three
    requests, sleeps the back-off delays 2 and then 4 seconds after the
    failed attempts that are retried (as many as the requests less one), and
    then sleeps the configured delay once; what was slept before is kept. *)
Theorem main_table_cost_bounds (client : Client) (args : arguments)
    (df : DataFrame) (w : world) (dl : Q) :
  delay args = Finite dl -> sleepable (Finite dl) = true ->
  exists log w',
    main_table client args df w
    = (Ok (with_summaries (pivot_flights df) (map (fun e => Some (fst e)) log)),
       w')
    /\ field_by_field client args dl (iterrows (pivot_flights df)) w log w'
    /\ List.length log = List.length (rows (pivot_flights df))
    /\ Forall (fun e => (1 <= snd e <= 3)%nat) log
    /\ calls w' = (calls w + list_sum (map snd log))%nat
    /\ slept w'
       = (slept w
          ++ flat_map (fun e => firstn (snd e - 1) [2; 4]%Q ++ [dl]) log)%list.
Proof.
  intros Hdl Hdelay.
  destruct (summarize_all_fields client args dl (iterrows (pivot_flights df))
              Hdl Hdelay (has_columns_pivot df) w)
    as (log & w' & Hall & Hlog & Hbounds).
  exists log, w'. split; [unfold main_table, bind; now rewrite Hall|].
  split; [exact Hlog|]. split.
  { rewrite (field_by_field_length _ _ _ _ _ _ _ Hlog).
    unfold iterrows. apply length_map. }
  split; [exact Hbounds|].
  exact (field_by_field_cost _ _ _ _ _ _ _ Hlog).
Qed.

Lemma main_table_cost_bounds_witness :
  exists (log : list (string * nat)) (w' : world),
    main_table always_down sample_args two_passes new_world
    = (Ok (with_summaries (pivot_flights two_passes)
             (map (fun e => Some (fst e)) log)), w')
    /\ calls w' = list_sum (map snd log)
    /\ List.length log = 1%nat.
Proof.
  destruct (main_table_cost_bounds always_down sample_args two_passes new_world
              (1 # 4) eq_refl eq_refl)
    as (log & w' & Hm & _ & Hlen & _ & Hc & _).
  exists log, w'. split; [exact Hm|]. split; [exact Hc | exact Hlen].
Defined.




(** X19.  A delay between fields that [time.sleep] refuses (a negative one
    as with [--delay -1], one of 9223372036.854778 seconds or more, an
    infinity or not-a-number) stops the run at its first field: when the
    pivoted table has a row, the run raises after the requests of that
    field, at least one and at most three, and no table is written. *)
Theorem main_table_refused_delay (client : Client) (args : arguments)
    (df : DataFrame) (w : world) :
  refused (delay args) = true ->
  rows (pivot_flights df) <> [] ->
  exists e w' n,
    main_table client args df w = (Raised e, w')
    /\ (1 <= n <= 3)%nat
    /\ calls w' = (calls w + n)%nat
    /\ slept w' = (slept w ++ firstn (n - 1) [2; 4]%Q)%list.
Proof.
  intros Hdelay Hrows.
  pose proof (has_columns_pivot df) as Hcols.
  unfold main_table. cbv zeta. unfold iterrows in *.
  destruct (rows (pivot_flights df)) as [|cells more]; [congruence|].
  cbn [map] in *.
  set (row := combine (columns (pivot_flights df)) cells) in *.
  destruct (Hcols row (or_introl eq_refl)) as (a & b & c & Ha & Hb & Hc).
  destruct (retry_loop_cost client (model args)
              (request_input a b c (build_flight_blob row))
              default_retries default_backoff 2 0 w _ eq_refl
              default_naps_values)
    as (s & u & n & Hloop & Hn & Hcalls & Hslept).
  destruct (sleep_refused (delay args) u (refused_not_sleepable _ Hdelay))
    as [e He].
  exists e, u, n. split; [|auto].
  unfold bind at 1. cbn [summarize_all]. unfold bind at 1.
  rewrite (summarize_row_unfold _ _ _ _ _ _ _ _ _ Ha Hb Hc), Hloop.
  unfold bind at 1. rewrite He. reflexivity.
Qed.

Lemma main_table_refused_delay_witness :
  exists e w' n,
    main_table always_up hasty_args two_passes new_world = (Raised e, w')
    /\ (1 <= n <= 3)%nat
    /\ calls w' = (calls new_world + n)%nat
    /\ slept w' = (slept new_world ++ firstn (n - 1) [2; 4]%Q)%list.
Proof.
  apply (main_table_refused_delay always_up hasty_args two_passes new_world).
  - reflexivity.
  - vm_compute. discriminate.
Defined.

(** ** The output file name, further *)

Lemma free_of_app (c : ascii) (a b : string) :
  free_of c a -> free_of c b -> free_of c (a ++ b).
Proof. induction a as [|x a IH]; simpl; [tauto | intuition]. Qed.

Lemma free_of_substring (c : ascii) (s : string) :
  free_of c s -> forall n m, free_of c (substring n m s).
Proof.
  induction s as [|x s IH]; intros F n m.
  - destruct n, m; exact I.
  - destruct F as [Fx Fs]. destruct n as [|n].
    + destruct m as [|m]; simpl; [exact I | split; [exact Fx | now apply IH]].
    + simpl. now apply IH.
Qed.

Lemma split_slash_free (s : string) : Forall (free_of "/") (split_slash s).
Proof.
  induction s as [|c s IH]; simpl.
  - repeat constructor.
  - destruct (Ascii.eqb_spec c "/") as [E|E].
    + constructor; [exact I | exact IH].
    + destruct (split_slash s) as [|p ps].
      * repeat constructor. exact E.
      * inversion IH as [|? ? Hp Hps]; subst.
        constructor; [split; [exact E | exact Hp] | exact Hps].
Qed.

Lemma last_Forall {A : Type} (P : A -> Prop) (l : list A) (d : A) :
  Forall P l -> P d -> P (last l d).
Proof.
  induction l as [|a l IH]; intros Hl Hd; [exact Hd|].
  inversion Hl as [|? ? Ha Hl']; subst. simpl.
  destruct l; [exact Ha | now apply IH].
Qed.

Lemma path_name_free (p : string) : free_of "/" (path_name p).
Proof.
  unfold path_name, path_parts. apply last_Forall; [|exact I].
  apply Forall_forall. intros x Hx. apply filter_In in Hx as [Hx _].
  exact (proj1 (Forall_forall _ _) (split_slash_free p) x Hx).
Qed.

(** X17.  The default output name is never the name of the input file (it is
    eleven characters longer), and it holds no "/": written next to the
    input, the output cannot replace it. *)
Theorem default_output_fresh (p : string) :
  default_output p <> path_name p
  /\ String.length (default_output p) = (String.length (path_name p) + 11)%nat
  /\ free_of "/" (default_output p).
Proof.
  assert (L : String.length (default_output p)
              = (String.length (path_name p) + 11)%nat).
  { unfold default_output. rewrite <- (stem_suffix_name p).
    rewrite !string_length_app. simpl. lia. }
  split; [|split; [exact L|]].
  - intros E. rewrite E in L. lia.
  - unfold default_output, path_stem, path_suffix.
    pose proof (path_name_free p) as F.
    destruct ((0 <? rfind_dot (path_name p))
              && (rfind_dot (path_name p) <? len (path_name p) - 1)).
    + apply free_of_app; [now apply free_of_substring|].
      apply free_of_app; [|now apply free_of_substring].
      simpl. repeat split; discriminate.
    + apply free_of_app; [exact F|].
      apply free_of_app; [|exact I].
      simpl. repeat split; discriminate.
Qed.
